(** * Masquerade snap: identity protocol, link graph, sessions, key derivation

    A shallow embedding of the identity protocol handlers
    (the second document of src/packages/shared/src/types.ts) and of the
    key derivation helpers (the second document of
    src/packages/snap/src/protocols/icrc1.ts).

    Handlers are written in a small reader/state/error monad: the reader
    carries what the environment decides (the user's answer to a
    confirmation dialog, the clock), the state is the encrypted storage
    together with a trace of the effects performed, and an error is a thrown
    exception.  The [StateManager] object is threaded explicitly, as the code
    threads [manager]. *)

From Stdlib Require Import ZArith.
From Stdlib.Strings Require Import Byte Ascii.
From stdpp Require Import gmap strings list fin_maps pretty.

(** ** Data model (types.ts, and the fields the handlers read and write) *)

Abbreviation TOrigin := string (only parsing).
Abbreviation TIdentityId := nat (only parsing).
Abbreviation TTimestamp := Z (only parsing).
Abbreviation TBlob := (list byte) (only parsing).

(** [ZSession] *)
Record ISession := mkSession {
  deriviationOrigin : TOrigin;
  identityId : TIdentityId;
  timestampMs : TTimestamp;
}.

(** [ZSiteSession], a union discriminated by its [type] field *)
Inductive ISiteSession :=
  | SiteSessionOrigin (origin : TOrigin) (identityId : TIdentityId)
  | SiteSessionCanisterId (canisterId : string) (identityId : TIdentityId).

(** [ZOriginData], with the two directional link arrays the handlers use
    ([originData.linksFrom], [originData.linksTo]). *)
Record IOriginData := mkOriginData {
  identitiesTotal : TIdentityId;
  linksFrom : list TOrigin;
  linksTo : list TOrigin;
  currentSession : option ISession;
}.

(** [ZState] *)
Record IState := mkState {
  siteSession : option ISiteSession;
  originData : gmap string IOriginData;
}.

#[global] Instance ISession_eq_dec : EqDecision ISession.
Proof. solve_decision. Defined.

#[global] Instance IOriginData_eq_dec : EqDecision IOriginData.
Proof. solve_decision. Defined.

(** Request bodies, after [zodParse (fromCBOR bodyCBOR)]. *)
Record IIdentityAddRequest := { add_toOrigin : TOrigin }.

Record IIdentityLoginRequest := {
  toOrigin : TOrigin;
  withIdentityId : TIdentityId;
  withLinkedOrigin : option TOrigin;
}.

Record IIdentityGetLoginOptionsRequest := { forOrigin : TOrigin }.

Record IIdentityLinkRequest := { link_withOrigin : TOrigin }.

Record IIdentityUnlinkRequest := { unlink_withOrigin : TOrigin }.

Record IIdentitySignRequest := { challenge : TBlob; sign_salt : option TBlob }.

Record IIdentityGetPublicKeyRequest := { pk_salt : option TBlob }.

(** Errors: [err(ErrorCode.X, msg)] and [unreacheable(msg)] both throw. *)
Inductive ErrorCode := UNAUTHORIZED | INVALID_INPUT | PROTECTED_METHOD.

Inductive MsqError :=
  | Err (code : ErrorCode) (msg : string)
  | Unreacheable (msg : string).

Inductive Result (A : Type) :=
  | Ok (a : A)
  | Throw (e : MsqError).
Arguments Ok {A} a.
Arguments Throw {A} e.

(** Field updates on an origin entry. *)
Definition with_currentSession (s : option ISession) (d : IOriginData) : IOriginData :=
  mkOriginData (identitiesTotal d) (linksFrom d) (linksTo d) s.

Definition with_linksTo (l : list TOrigin) (d : IOriginData) : IOriginData :=
  mkOriginData (identitiesTotal d) (linksFrom d) l (currentSession d).

Definition with_linksFrom (l : list TOrigin) (d : IOriginData) : IOriginData :=
  mkOriginData (identitiesTotal d) l (linksTo d) (currentSession d).

Definition with_identitiesTotal (n : TIdentityId) (d : IOriginData) : IOriginData :=
  mkOriginData n (linksFrom d) (linksTo d) (currentSession d).

(** The line feed of the template literals ([\n], [\x0a]). *)
Definition LF : string := String "010"%char EmptyString.

(** [entropyPre.slice(2)]: the string without its first [n] characters. *)
Fixpoint slice (n : nat) (s : string) : string :=
  match n, s with
  | 0, _ => s
  | S _, EmptyString => EmptyString
  | S n', String _ s' => slice n' s'
  end.

(** ** Byte strings of a given length

    Used to count the digests a hash of fixed output length can give. *)
Definition allBytes : list byte := omap Byte.of_nat (seq 0 256).

Fixpoint blobsOfLength (n : nat) : list TBlob :=
  match n with
  | 0 => [[]]
  | S n => b ← allBytes; (cons b) <$> blobsOfLength n
  end.

(** A seed of the wallet, given as the entropy it yields for a salt: the hex
    string of [x] for the salt [lx], of [y] for the salt [ly], and for every
    other salt that of a byte string of its own, longer than [x] and [y]. *)
Definition seedThrough (toHex : TBlob → string) (lx ly : string) (x y : TBlob)
    (salt : string) : string :=
  "0x" +:+ toHex (if decide (salt = lx) then x
                  else if decide (salt = ly) then y
                  else x ++ y ++ x00 :: String.list_byte_of_string salt).

(** ** A small concrete host

    Stand-ins for the host primitives, simple enough to evaluate, on which
    the handlers are run in the examples below.  They are not the real
    primitives: the entropy of a salt is the salt itself behind a [0x]
    prefix, and the digest is the last 32 bytes of its input, reversed and
    padded. *)
Module SampleHost.

Definition Stats : Type := nat.

Definition bumpStats (_ : TOrigin) (n : Stats) : Stats := S n.

Definition snap_getEntropy (salt : string) : string := "0x" +:+ salt.

Definition hexToBytes (s : string) : TBlob := String.list_byte_of_string s.

Definition digest32 (bs : TBlob) : TBlob := take 32 (reverse bs ++ replicate 32 x00).

Definition Secp256k1KeyIdentity : Type := TBlob.

Definition fromSecretKey (sk : TBlob) : Secp256k1KeyIdentity := sk.

Definition publicKeyRaw (k : Secp256k1KeyIdentity) : TBlob := k.

Definition principalText (k : Secp256k1KeyIdentity) : string := String.string_of_list_byte k.

Definition signWith (k : Secp256k1KeyIdentity) (msg : TBlob) : TBlob := k ++ msg.

(** A second stand-in for the principal of a key pair, one that is not the
    text of its public key: 28 bytes of a digest of the public key followed
    by the byte 2. *)
Definition selfAuthenticating (k : Secp256k1KeyIdentity) : string :=
  String.string_of_list_byte (take 28 (digest32 (publicKeyRaw k)) ++ [x02]).

Definition MSQ_SNAP_SITE_ORIGIN : TOrigin := "https://msq.tech".

Definition A : TOrigin := "https://a.example".

Definition B : TOrigin := "https://b.example".

End SampleHost.

Section Snap.

#[local] Set Default Proof Using "Type".

(** ** What the host runtime and the rest of the package provide *)

(** The usage statistics kept next to the state, and what one call of
    [incrementStats] does to them. *)
Variable Stats : Type.
Variable bumpStats : TOrigin -> Stats -> Stats.

(** [snap.request({method: "snap_getEntropy", params: {version: 1, salt}})]:
    a hex string with a [0x] prefix, fixed by the user's seed and the salt. *)
Variable snap_getEntropy : string -> string.
(** [hexToBytes] of the shared package. *)
Variable hexToBytes : string -> TBlob.
(** [crypto.subtle.digest("SHA-256", _)]. *)
Variable sha256 : TBlob -> TBlob.
(** [Secp256k1KeyIdentity] with [fromSecretKey], [getPublicKey().toRaw()],
    [getPrincipal().toText()] and [sign]. *)
Variable Secp256k1KeyIdentity : Type.
Variable fromSecretKey : TBlob -> Secp256k1KeyIdentity.
Variable publicKeyRaw : Secp256k1KeyIdentity -> TBlob.
Variable principalText : Secp256k1KeyIdentity -> string.
Variable signWith : Secp256k1KeyIdentity -> TBlob -> TBlob.
(** [JSON.parse(process.env.MSQ_SNAP_SITE_ORIGIN)] *)
Variable MSQ_SNAP_SITE_ORIGIN : TOrigin.

(** ** The state manager *)

(** What a [StateManager] instance holds in memory, and what [persist]
    writes to the encrypted storage. *)
Record StateManager := mkManager {
  state : IState;
  stats : Stats;
}.

Definition with_originData (od : gmap string IOriginData) (m : StateManager) : StateManager :=
  mkManager (mkState (siteSession (state m)) od) (stats m).

(** Modelled from the spec: the default entry of StateManager.getOriginData
    (state.ts is not among the sources): identitiesTotal = 0, empty link
    sets, no session. *)
Definition makeDefaultOriginData : IOriginData :=
  mkOriginData 0 [] [] None.

(** The entry of [o] as a value: the stored one, or the default. *)
Definition originDataOf (m : StateManager) (o : TOrigin) : IOriginData :=
  default makeDefaultOriginData (originData (state m) !! o).

(** A JavaScript reference to an origin entry, as a handler holds it in a
    local [const originData]: either the very object stored under [o] (a
    write through it is a write to the store), or an object that is not in
    the store yet. *)
Inductive OriginDataRef :=
  | RefStored (o : TOrigin)
  | RefFresh (d : IOriginData).

(** Modelled from the spec: StateManager.getOriginData (state.ts is not
    among the sources) returns the existing entry, or a freshly materialized
    default without yet storing it. *)
Definition getOriginData (m : StateManager) (o : TOrigin) : OriginDataRef :=
  match originData (state m) !! o with
  | Some _ => RefStored o
  | None => RefFresh makeDefaultOriginData
  end.

(** Reading through a reference. *)
Definition deref (m : StateManager) (r : OriginDataRef) : IOriginData :=
  match r with
  | RefStored o => originDataOf m o
  | RefFresh d => d
  end.

(** [ref.currentSession = s] *)
Definition assignCurrentSession (s : option ISession) (m : StateManager) (r : OriginDataRef)
  : StateManager * OriginDataRef :=
  match r with
  | RefStored o =>
      (with_originData (alter (with_currentSession s) o (originData (state m))) m, r)
  | RefFresh d => (m, RefFresh (with_currentSession s d))
  end.

(** Modelled from the spec: StateManager.setOriginData (state.ts is not among
    the sources) replaces the stored entry wholesale. *)
Definition setOriginData (m : StateManager) (o : TOrigin) (r : OriginDataRef) : StateManager :=
  with_originData (<[o := deref m r]> (originData (state m))) m.

(** Modelled from the spec: StateManager.linkExists (state.ts is not among
    the sources) is true iff [otherOrigin] is in [linksTo(origin)]. *)
Definition linkExists (m : StateManager) (from to : TOrigin) : bool :=
  bool_decide (to ∈ linksTo (originDataOf m from)).

(** Modelled from the spec: StateManager.link (state.ts is not among the
    sources) adds the edge to both directional sets, and does nothing for a
    self-link or an edge that exists. *)
Definition link (m : StateManager) (from to : TOrigin) : StateManager :=
  if bool_decide (from = to) || linkExists m from to then m
  else
    let fromData := originDataOf m from in
    let od1 := <[from := with_linksTo (linksTo fromData ++ [to]) fromData]> (originData (state m)) in
    let toData := default makeDefaultOriginData (od1 !! to) in
    with_originData (<[to := with_linksFrom (linksFrom toData ++ [from]) toData]> od1) m.

(** [arr.filter(x => x !== o)] *)
Definition without (o : TOrigin) (l : list TOrigin) : list TOrigin :=
  filter (λ x, x ≠ o) l.

(** Modelled from the spec: StateManager.unlink (state.ts is not among the
    sources) removes the edge from both directional sets if present, and does
    nothing if absent. *)
Definition unlink (m : StateManager) (from to : TOrigin) : StateManager :=
  let od1 := alter (λ d, with_linksTo (without to (linksTo d)) d) from (originData (state m)) in
  with_originData (alter (λ d, with_linksFrom (without from (linksFrom d)) d) to od1) m.

(** Modelled from the spec: StateManager.addIdentity (state.ts is not among
    the sources) increments identitiesTotal. *)
Definition addIdentity (m : StateManager) (o : TOrigin) : StateManager :=
  let d := originDataOf m o in
  with_originData (<[o := with_identitiesTotal (S (identitiesTotal d)) d]> (originData (state m))) m.

(** Modelled from the spec: StateManager.incrementStats (state.ts is not
    among the sources) updates a usage counter and nothing else. *)
Definition incrementStats (m : StateManager) (o : TOrigin) : StateManager :=
  mkManager (state m) (bumpStats o (stats m)).

(** ** Key derivation (utils.ts) *)

(** The [salt] parameter of the [snap_getEntropy] request, the template
    literal [`\x0amasquerade-snap\n${origin}\n${identityId}\n${internalSalt}`]. *)
Definition entropySalt (origin : TOrigin) (identityId : TIdentityId) (internalSalt : string) : string :=
  LF +:+ "masquerade-snap" +:+ LF +:+ origin +:+ LF +:+ pretty identityId +:+ LF +:+ internalSalt.

Definition getEntropy (origin : TOrigin) (identityId : TIdentityId) (internalSalt : string)
    (customSalt : option TBlob) : TBlob :=
  let entropyPre := snap_getEntropy (entropySalt origin identityId internalSalt) in
  let entropyPreBytes :=
    match customSalt with
    | None => hexToBytes (slice 2 entropyPre)
    | Some customSalt => hexToBytes (slice 2 entropyPre) ++ customSalt
    end in
  sha256 entropyPreBytes.

Definition getSignIdentity (origin : TOrigin) (identityId : TIdentityId) (salt : option TBlob)
  : Secp256k1KeyIdentity :=
  let entropy := getEntropy origin identityId ("identity-sign" +:+ LF +:+ "shared") salt in
  fromSecretKey entropy.

Definition isMasquerade (origin : TOrigin) : bool :=
  bool_decide (origin = MSQ_SNAP_SITE_ORIGIN).

(** ** The handler monad *)

(** What the environment decides during one request: the user's answer to a
    confirmation dialog, and [new Date().getTime()]. *)
Record Env := mkEnv {
  userAgrees : bool;
  nowMs : TTimestamp;
}.

Inductive Event := EvDialog | EvPersist.

(** The encrypted storage, and the effects performed so far. *)
Record World := mkWorld {
  storage : StateManager;
  trace : list Event;
}.

Definition Handler (A : Type) : Type := Env -> World -> Result A * World.

#[local] Instance Handler_ret : MRet Handler := λ A a _ w, (Ok a, w).

#[local] Instance Handler_bind : MBind Handler := λ A B f h env w,
  match h env w with
  | (Ok a, w') => f a env w'
  | (Throw e, w') => (Throw e, w')
  end.

(** [err(code, msg)] *)
Definition err {A} (code : ErrorCode) (msg : string) : Handler A :=
  λ _ w, (Throw (Err code msg), w).

(** [unreacheable(msg)] *)
Definition unreacheable {A} (msg : string) : Handler A :=
  λ _ w, (Throw (Unreacheable msg), w).

(** [if (cond) throwing-statement] *)
Definition when (cond : bool) (h : Handler unit) : Handler unit :=
  if cond then h else mret ().

(** Modelled from the spec: StateManager.make (state.ts is not among the
    sources) loads the latest persisted state, then constructs the manager
    from it. *)
Definition StateManager_make : Handler StateManager :=
  λ _ w, (Ok (storage w), w).

(** Modelled from the spec: StateManager.persist (state.ts is not among the
    sources) writes the full state of the manager to the encrypted storage. *)
Definition persist (manager : StateManager) : Handler unit :=
  λ _ w, (Ok (), mkWorld manager (trace w ++ [EvPersist])).

(** [await snap.request({method: "snap_dialog", params: {type: "confirmation", ...}})] *)
Definition snap_dialog : Handler bool :=
  λ env w, (Ok (userAgrees env), mkWorld (storage w) (trace w ++ [EvDialog])).

(** [new Date().getTime()] *)
Definition getTime : Handler TTimestamp :=
  λ env w, (Ok (nowMs env), w).

(** One request against a storage, with an empty trace. *)
Definition run {A} (h : Handler A) (env : Env) (st : StateManager) : Result A * World :=
  h env (mkWorld st []).

(** ** The identity protocol handlers (identity.ts) *)

Definition protected_handleIdentityAdd (body : IIdentityAddRequest) : Handler bool :=
  manager ← StateManager_make;
  let manager := addIdentity manager (add_toOrigin body) in
  let manager := incrementStats manager (add_toOrigin body) in
  persist manager;;
  mret true.

Definition protected_handleIdentityLogin (body : IIdentityLoginRequest) : Handler bool :=
  manager ← StateManager_make;
  match withLinkedOrigin body with
  | Some linked =>
      when (bool_decide (linked ≠ toOrigin body))
        (when (negb (linkExists manager linked (toOrigin body)))
           (err UNAUTHORIZED "Unable to login without a link"))
  | None => mret ()
  end;;
  let originData := getOriginData manager (toOrigin body) in
  when (bool_decide (identitiesTotal (deref manager originData) = 0))
    (unreacheable "login - no origin data found");;
  timestamp ← getTime;
  let '(manager, originData) :=
    assignCurrentSession
      (Some {| deriviationOrigin := default (toOrigin body) (withLinkedOrigin body);
               identityId := withIdentityId body;
               timestampMs := timestamp |})
      manager originData in
  let manager := setOriginData manager (toOrigin body) originData in
  let manager := incrementStats manager (toOrigin body) in
  persist manager;;
  mret true.

(** The inner loop [for (let i = 0; i < identitiesTotal; i++) options.push(...)]:
    [remaining] iterations are left, the next index is [i]. *)
Fixpoint pushOptions (origin : TOrigin) (remaining : nat) (i : TIdentityId) (options : list string)
  : list string :=
  match remaining with
  | 0 => options
  | S remaining' =>
      let identity := getSignIdentity origin i None in
      let principal := principalText identity in
      pushOptions origin remaining' (S i) (options ++ [principal])
  end.

(** The outer loop [for (const origin of originData.linksFrom)]. *)
Fixpoint pushLinkedOptions (manager : StateManager) (origins : list TOrigin)
    (result : list (TOrigin * list string)) : list (TOrigin * list string) :=
  match origins with
  | [] => result
  | origin :: rest =>
      let linkedOriginData := getOriginData manager origin in
      let options := pushOptions origin (identitiesTotal (deref manager linkedOriginData)) 0 [] in
      pushLinkedOptions manager rest (result ++ [(origin, options)])
  end.

Definition protected_handleIdentityGetLoginOptions (body : IIdentityGetLoginOptionsRequest)
  : Handler (list (TOrigin * list string)) :=
  manager ← StateManager_make;
  let manager := incrementStats manager (forOrigin body) in
  let result := [] in
  let originData := getOriginData manager (forOrigin body) in
  let options := pushOptions (forOrigin body) (identitiesTotal (deref manager originData)) 0 [] in
  let result := result ++ [(forOrigin body, options)] in
  let result := pushLinkedOptions manager (linksFrom (deref manager originData)) result in
  persist manager;;
  mret result.

Definition handleIdentityLogoutRequest (origin : TOrigin) : Handler bool :=
  manager ← StateManager_make;
  let originData := getOriginData manager origin in
  match currentSession (deref manager originData) with
  | None => mret true
  | Some _ =>
      agreed ← snap_dialog;
      if negb agreed then mret false
      else
        let '(manager, originData) := assignCurrentSession None manager originData in
        let manager := setOriginData manager origin originData in
        let manager := incrementStats manager origin in
        persist manager;;
        mret true
  end.

(** The session the two signing handlers work with: the stored one, or the
    implicit one of the Masquerade site itself. *)
Definition sessionOrImplicit (manager : StateManager) (origin : TOrigin) : Handler ISession :=
  match currentSession (deref manager (getOriginData manager origin)) with
  | Some session => mret session
  | None =>
      if isMasquerade origin
      then mret {| deriviationOrigin := origin; identityId := 0; timestampMs := 0 |}
      else err UNAUTHORIZED "Log in first"
  end.

Definition handleIdentitySign (body : IIdentitySignRequest) (origin : TOrigin) : Handler TBlob :=
  manager ← StateManager_make;
  session ← sessionOrImplicit manager origin;
  let identity := getSignIdentity (deriviationOrigin session) (identityId session) (sign_salt body) in
  let manager := incrementStats manager origin in
  persist manager;;
  mret (signWith identity (challenge body)).

Definition handleIdentityGetPublicKey (body : IIdentityGetPublicKeyRequest) (origin : TOrigin)
  : Handler TBlob :=
  manager ← StateManager_make;
  session ← sessionOrImplicit manager origin;
  let identity := getSignIdentity (deriviationOrigin session) (identityId session) (pk_salt body) in
  let manager := incrementStats manager origin in
  persist manager;;
  mret (publicKeyRaw identity).

Definition handleIdentityLinkRequest (body : IIdentityLinkRequest) (origin : TOrigin) : Handler bool :=
  manager ← StateManager_make;
  when (bool_decide (origin = link_withOrigin body))
    (err INVALID_INPUT "Unable to link to itself");;
  if linkExists manager origin (link_withOrigin body) then mret true
  else
    agreed ← snap_dialog;
    if negb agreed then mret false
    else
      let manager := link manager origin (link_withOrigin body) in
      let manager := incrementStats manager origin in
      persist manager;;
      mret true.

Definition handleIdentityUnlinkRequest (body : IIdentityUnlinkRequest) (origin : TOrigin)
  : Handler bool :=
  manager ← StateManager_make;
  if negb (linkExists manager origin (unlink_withOrigin body)) then mret true
  else
    agreed ← snap_dialog;
    if negb agreed then mret false
    else
      let manager := unlink manager origin (unlink_withOrigin body) in
      let targetOriginData := getOriginData manager (unlink_withOrigin body) in
      let '(manager, targetOriginData) :=
        match currentSession (deref manager targetOriginData) with
        | Some session =>
            if bool_decide (deriviationOrigin session = origin)
            then assignCurrentSession None manager targetOriginData
            else (manager, targetOriginData)
        | None => (manager, targetOriginData)
        end in
      let manager := incrementStats manager origin in
      persist manager;;
      mret true.

Definition handleIdentityGetLinks (origin : TOrigin) : Handler (list TOrigin) :=
  manager ← StateManager_make;
  let originData := getOriginData manager origin in
  let manager := incrementStats manager origin in
  persist manager;;
  mret (linksTo (deref manager originData)).

Definition handleIdentitySessionExists (origin : TOrigin) : Handler bool :=
  manager ← StateManager_make;
  let manager := incrementStats manager origin in
  persist manager;;
  mret (bool_decide (currentSession (deref manager (getOriginData manager origin)) ≠ None)).

(** ** Requests and reachable states *)

(** The operations of the identity protocol, each with its arguments. *)
Inductive Request :=
  | ReqAdd (body : IIdentityAddRequest)
  | ReqLogin (body : IIdentityLoginRequest)
  | ReqGetLoginOptions (body : IIdentityGetLoginOptionsRequest)
  | ReqLogout (origin : TOrigin)
  | ReqSign (body : IIdentitySignRequest) (origin : TOrigin)
  | ReqGetPublicKey (body : IIdentityGetPublicKeyRequest) (origin : TOrigin)
  | ReqLink (body : IIdentityLinkRequest) (origin : TOrigin)
  | ReqUnlink (body : IIdentityUnlinkRequest) (origin : TOrigin)
  | ReqGetLinks (origin : TOrigin)
  | ReqSessionExists (origin : TOrigin).

(** What a request leaves in the storage, whatever it answers. *)
Definition storageAfter (req : Request) (env : Env) (st : StateManager) : StateManager :=
  match req with
  | ReqAdd body => storage (run (protected_handleIdentityAdd body) env st).2
  | ReqLogin body => storage (run (protected_handleIdentityLogin body) env st).2
  | ReqGetLoginOptions body => storage (run (protected_handleIdentityGetLoginOptions body) env st).2
  | ReqLogout origin => storage (run (handleIdentityLogoutRequest origin) env st).2
  | ReqSign body origin => storage (run (handleIdentitySign body origin) env st).2
  | ReqGetPublicKey body origin => storage (run (handleIdentityGetPublicKey body origin) env st).2
  | ReqLink body origin => storage (run (handleIdentityLinkRequest body origin) env st).2
  | ReqUnlink body origin => storage (run (handleIdentityUnlinkRequest body origin) env st).2
  | ReqGetLinks origin => storage (run (handleIdentityGetLinks origin) env st).2
  | ReqSessionExists origin => storage (run (handleIdentitySessionExists origin) env st).2
  end.

(** The state a fresh installation starts from. *)
Definition emptyState (s0 : Stats) : StateManager :=
  mkManager (mkState None ∅) s0.

(** The storage after a sequence of requests, each with its environment. *)
Definition storageAfterAll (reqs : list (Request * Env)) (st : StateManager) : StateManager :=
  foldl (λ st re, storageAfter re.1 re.2 st) st reqs.

Inductive reachable (s0 : Stats) : StateManager -> Prop :=
  | reachable_empty : reachable s0 (emptyState s0)
  | reachable_step st req env :
      reachable s0 st -> reachable s0 (storageAfter req env st).

(** The link graph is stored consistently in both directions. *)
Definition linksConsistent (m : StateManager) : Prop :=
  ∀ a b : TOrigin,
    b ∈ linksTo (originDataOf m a) ↔ a ∈ linksFrom (originDataOf m b).

(** ** The derivation as the specification words it *)

(** The fixed namespace tag. *)
Definition NAMESPACE_TAG : string := LF +:+ "masquerade-snap".

(** The label: the tag, the origin, the identity index and the purpose
    label, concatenated line by line. *)
Definition derivationLabel (origin : TOrigin) (identityIndex : TIdentityId) (purposeLabel : string)
  : string :=
  String.concat LF [NAMESPACE_TAG; origin; pretty identityIndex; purposeLabel].

(** The Entropy Source: raw bytes for a label. *)
Definition entropySource (label : string) : TBlob :=
  hexToBytes (slice 2 (snap_getEntropy label)).

(** Entropy for exactly the label, the custom salt appended when present,
    hashed into the private key. *)
Definition derive_reference (origin : TOrigin) (identityIndex : TIdentityId) (purposeLabel : string)
    (customSalt : option TBlob) : TBlob :=
  let raw := entropySource (derivationLabel origin identityIndex purposeLabel) in
  sha256 (raw ++ default [] customSalt).

(** The public key of the pair derived for a purpose label. *)
Definition derivedPublicKey (origin : TOrigin) (identityId : TIdentityId) (internalSalt : string)
    (customSalt : option TBlob) : TBlob :=
  publicKeyRaw (fromSecretKey (getEntropy origin identityId internalSalt customSalt)).

(** The bytes [getEntropy] hashes, its local [entropyPreBytes]: the entropy
    of the salt of the three inputs, with the custom salt appended when there
    is one. *)
Definition entropyPreBytes (origin : TOrigin) (identityId : TIdentityId) (internalSalt : string)
    (customSalt : option TBlob) : TBlob :=
  let entropyPre := snap_getEntropy (entropySalt origin identityId internalSalt) in
  match customSalt with
  | None => hexToBytes (slice 2 entropyPre)
  | Some customSalt => hexToBytes (slice 2 entropyPre) ++ customSalt
  end.

(** SHA-256 followed by the key generation gives one public key for two
    different byte strings. *)
Definition collide (x y : TBlob) : Prop :=
  x ≠ y ∧ publicKeyRaw (fromSecretKey (sha256 x)) = publicKeyRaw (fromSecretKey (sha256 y)).

(** ** Notions the statements below are written with *)

(** The link check of the login handler. *)
Definition linkCheck (m : StateManager) (body : IIdentityLoginRequest) : bool :=
  match withLinkedOrigin body with
  | Some linked => bool_decide (linked = toOrigin body) || linkExists m linked (toOrigin body)
  | None => true
  end.

(** The session a successful login records. *)
Definition loginSession (body : IIdentityLoginRequest) (now : TTimestamp) : ISession :=
  {| deriviationOrigin := default (toOrigin body) (withLinkedOrigin body);
     identityId := withIdentityId body;
     timestampMs := now |}.

(** The storage a successful login leaves. *)
Definition loggedIn (m : StateManager) (body : IIdentityLoginRequest) (now : TTimestamp) : StateManager :=
  incrementStats
    (with_originData
       (<[toOrigin body := with_currentSession (Some (loginSession body now))
                             (originDataOf m (toOrigin body))]> (originData (state m))) m)
    (toOrigin body).

(** The storage a confirmed logout leaves. *)
Definition loggedOut (m : StateManager) (origin : TOrigin) : StateManager :=
  incrementStats
    (with_originData
       (<[origin := with_currentSession None (originDataOf m origin)]> (originData (state m))) m)
    origin.

(** What the unlink handler does to the session of the target origin, after
    the edge is removed. *)
Definition deauthorize (m : StateManager) (origin target : TOrigin) : StateManager :=
  match currentSession (originDataOf m target) with
  | Some session =>
      if bool_decide (deriviationOrigin session = origin)
      then with_originData (alter (with_currentSession None) target (originData (state m))) m
      else m
  | None => m
  end.

(** Two states with the same link lists everywhere. *)
Definition sameLinks (m m' : StateManager) : Prop :=
  ∀ o : TOrigin,
    linksTo (originDataOf m' o) = linksTo (originDataOf m o)
    ∧ linksFrom (originDataOf m' o) = linksFrom (originDataOf m o).

(** What holds of the link lists of every reachable state: both directions
    agree, no list repeats an origin, and no origin is linked to itself. *)
Definition wellLinked (m : StateManager) : Prop :=
  linksConsistent m
  ∧ (∀ o : TOrigin, NoDup (linksTo (originDataOf m o)))
  ∧ (∀ o : TOrigin, NoDup (linksFrom (originDataOf m o)))
  ∧ (∀ o : TOrigin, o ∉ linksTo (originDataOf m o)).

(** The principals of the first [n] identities of an origin. *)
Definition principalsOf (origin : TOrigin) (n : nat) : list string :=
  map (λ i, principalText (getSignIdentity origin i None)) (seq 0 n).

(** What a declined request looks like from outside: the storage is the one
    it started from, nothing was persisted, and if the user was asked the
    answer to the caller is [false]. *)
Definition declined (st : StateManager) (r : Result bool * World) : Prop :=
  storage (snd r) = st
  ∧ (EvPersist ∉ trace (snd r))
  ∧ (EvDialog ∈ trace (snd r) -> fst r = Ok false).

(** ** The rest of the snap: a request with its answer, the transfer
    confirmation (icrc1.ts), pseudonyms (utils.ts) *)

(** What a handler of the identity protocol answers. *)
Inductive Response :=
  | RespBool (b : bool)
  | RespLoginOptions (options : list (TOrigin * list string))
  | RespBlob (blob : TBlob)
  | RespOrigins (origins : list TOrigin).

(** A request answered by its handler. *)
Definition handle (req : Request) : Handler Response :=
  match req with
  | ReqAdd body => b ← protected_handleIdentityAdd body; mret (RespBool b)
  | ReqLogin body => b ← protected_handleIdentityLogin body; mret (RespBool b)
  | ReqGetLoginOptions body =>
      l ← protected_handleIdentityGetLoginOptions body; mret (RespLoginOptions l)
  | ReqLogout origin => b ← handleIdentityLogoutRequest origin; mret (RespBool b)
  | ReqSign body origin => b ← handleIdentitySign body origin; mret (RespBlob b)
  | ReqGetPublicKey body origin => b ← handleIdentityGetPublicKey body origin; mret (RespBlob b)
  | ReqLink body origin => b ← handleIdentityLinkRequest body origin; mret (RespBool b)
  | ReqUnlink body origin => b ← handleIdentityUnlinkRequest body origin; mret (RespBool b)
  | ReqGetLinks origin => l ← handleIdentityGetLinks origin; mret (RespOrigins l)
  | ReqSessionExists origin => b ← handleIdentitySessionExists origin; mret (RespBool b)
  end.

(** The origin whose usage a request counts: the argument of its
    [incrementStats] call. *)
Definition statsOrigin (req : Request) : TOrigin :=
  match req with
  | ReqAdd body => add_toOrigin body
  | ReqLogin body => toOrigin body
  | ReqGetLoginOptions body => forOrigin body
  | ReqLogout origin => origin
  | ReqSign _ origin => origin
  | ReqGetPublicKey _ origin => origin
  | ReqLink _ origin => origin
  | ReqUnlink _ origin => origin
  | ReqGetLinks origin => origin
  | ReqSessionExists origin => origin
  end.

(** The origins whose entries a request may write. *)
Definition writtenOrigins (req : Request) : list TOrigin :=
  match req with
  | ReqAdd body => [add_toOrigin body]
  | ReqLogin body => [toOrigin body]
  | ReqLogout origin => [origin]
  | ReqLink body origin => [origin; link_withOrigin body]
  | ReqUnlink body origin => [origin; unlink_withOrigin body]
  | _ => []
  end.

(** The fields of the transfer confirmation request the handler reads. *)
Record IShowICRC1TransferConfirmRequest := {
  requestOrigin : TOrigin;
  transfer_from : string;
  transfer_to_owner : string;
  transfer_to_subaccount : option TBlob;
  totalAmount : Z;
  ticker : string;
}.

(** [Boolean(agreed)] of the answer of a confirmation dialog. *)
Definition protected_handleShowICRC1TransferConfirm (body : IShowICRC1TransferConfirmRequest)
  : Handler bool :=
  agreed ← snap_dialog;
  manager ← StateManager_make;
  let manager := incrementStats manager (requestOrigin body) in
  persist manager;;
  mret agreed.

Definition ADJECTIVES : list string :=
  ["Slight"; "Rich"; "Eventual"; "Valid"; "Judicial"; "Thoughtful"; "Developed"; "Just";
   "Outdoor"; "Empty"; "Raw"; "Deliberate"; "Competent"; "Terrible"; "Asian"; "Good";
   "Regional"; "Rare"; "Short"; "Chronic"; "Drunk"; "Golden"; "Particular"; "Embarrassed";
   "Invisible"; "Characteristic"; "Sorry"; "Crooked"; "Healthy"; "Fierce"; "Real"; "Dead";
   "Rapid"; "Similar"; "Excited"; "Poor"; "Puny"; "Foolish"; "Partial"; "Junior";
   "Complicated"; "Enchanting"; "Wide"; "Hollow"; "Sore"; "Misty"; "Pretty"; "Lesser";
   "Religious"; "Genuine"; "Very"; "Mute"; "Scientific"; "Obnoxious"; "Melted";
   "Electronic"; "Passing"; "Exclusive"; "Victorian"; "Gentle"; "Kind"; "Precise";
   "Bitter"; "Frightened"; "Impressive"; "Excellent"; "Unpleasant"; "Regular"; "Female";
   "Semantic"; "Stable"; "Evil"; "Dull"; "Melodic"; "Happy"; "Beautiful"; "Managing";
   "Fresh"; "Far"; "Fortunate"; "Liberal"; "Angry"; "Reliable"; "Greek"; "Horrible";
   "Handsome"; "Scottish"; "Decent"; "Electrical"; "Total"; "Yellow"; "Enthusiastic";
   "Loose"; "Worthy"; "Blue"; "Dry"; "Shallow"; "Legitimate"; "Calm"; "Hot"; "Civic";
   "Wrong"; "Numerous"; "Supporting"; "Doubtful"; "Sound"; "Sour"; "Wet"; "Devoted";
   "Contemporary"; "Deaf"; "Ultimate"; "Scared"; "Reasonable"; "Elderly"; "Noisy";
   "Historical"; "Nearby"; "Shaggy"; "Smart"; "Immense"; "Constant"; "Past"; "Specified";
   "German"; "Upset"; "Public"; "Spicy"; "Informal"; "Brief"; "Underground"; "Busy";
   "Domestic"; "Grim"; "Excess"; "Bottom"; "Hungry"; "Roasted"; "Brave"; "Crazy"; "Minor";
   "Careful"; "Prior"; "Rough"; "Mysterious"; "Confused"; "Long"; "Current"; "Lucky";
   "Vertical"; "Bright"; "Ministerial"; "Fashionable"; "Heavy"; "Major"; "Amateur";
   "Respective"; "Teenage"; "Involved"; "Frail"; "Nice"; "Subjective"; "Productive";
   "Jolly"; "Nasty"; "Intelligent"; "Improved"; "Dangerous"; "Professional"; "Accused";
   "Lovely"; "Renewed"; "Pleasant"; "Various"; "Arbitrary"; "Incredible"; "Cheerful";
   "Creepy"; "Middle-class"; "Mammoth"; "Unknown"; "Shaky"; "Puzzled"; "Plain"; "Elegant";
   "Typical"; "Unable"; "Exact"; "Filthy"; "Keen"; "Operational"; "Voluntary"; "Secure";
   "Selfish"; "Ripe"; "Worrying"; "Thorough"; "Mass"; "Afraid"; "Sheer"; "Intact";
   "Required"; "Acute"; "Combative"; "Quick"; "Unusual"; "Odd"; "Proud"; "Remaining";
   "Collective"; "Blind"; "Outstanding"; "Clumsy"; "Orange"; "Neutral"; "Fluffy";
   "Painful"; "Crude"; "Manual"; "Comfortable"; "Printed"; "Dreadful"; "Big"; "Witty";
   "Protestant"; "Chilly"; "Narrow"; "Early"; "Safe"; "Daily"; "Popular"; "Modern";
   "Prospective"; "Blushing"; "Gradual"; "Tender"; "Convenient"; "Intense"; "Spontaneous";
   "Full-time"; "Jealous"; "Lengthy"; "Upper"; "Strategic"; "Brown"; "Gigantic"; "Fast";
   "Furious"; "Absent"; "Absolute"; "Abstract"; "Canceled"; "Academic"; "Concrete";
   "Accepted"; "Accessible"].

Definition NOUNS : list string :=
  ["Randomisation"; "Waist"; "Nightingale"; "Maiden"; "Luttuce"; "Cricketer"; "Name";
   "Bike"; "Bill"; "Company"; "Outset"; "Bibliography"; "Monday"; "Sunlamp"; "Director";
   "Ghana"; "Jewelry"; "Break"; "Nudge"; "Buckle"; "Stick"; "Dream"; "Astrolabe"; "Burma";
   "Ship"; "Throne"; "Baobab"; "Shaker"; "Laparoscope"; "Celery"; "Slope"; "Drink";
   "Bower"; "Seed"; "Billboard"; "Chit-chat"; "Bomb"; "Lumber"; "Fixture"; "Brushfire";
   "Ranch"; "Rail"; "Schedule"; "Cucumber"; "Handmaiden"; "Archaeology"; "Crib"; "Counter";
   "Steamroller"; "Glove"; "Gladiolus"; "Mood"; "Cracker"; "Belligerency"; "Bit"; "Granny";
   "Impudence"; "Microwave"; "Galley"; "Others"; "Hobbit"; "Buffet"; "Umbrella"; "Yacht";
   "Shelf"; "Balloon"; "Floozie"; "Archeology"; "Hostess"; "Drunk"; "Gaffer"; "Square";
   "Elephant"; "Bag"; "Vibraphone"; "Suburb"; "Celsius"; "Armoire"; "Radish"; "Reflection";
   "Orangutan"; "Input"; "Scent"; "Crest"; "Migrant"; "Inn"; "Driver"; "Bin"; "Cost";
   "Purse"; "Appendix"; "Bass"; "Phrase"; "Rowboat"; "Climb"; "Vessel"; "Cowbell"; "Grey";
   "Canteen"; "Crown"; "Drake"; "Bacon"; "Temper"; "Thursday"; "Spectacles"; "Leo";
   "Scorn"; "Accelerator"; "Chord"; "Filth"; "Discovery"; "Millisecond"; "Cardigan";
   "Outside"; "Heron"; "Scissors"; "Tabernacle"; "Spectrograph"; "Saving"; "Ketchup";
   "Inglenook"; "Paleontologist"; "Procedure"; "Icecream"; "Skiing"; "Prose"; "Tavern";
   "Brandy"; "Tailspin"; "Capitulation"; "Brush"; "Hamster"; "Jacket"; "Dragonfly";
   "Steam"; "Windage"; "East"; "Adapter"; "Safety"; "Sell"; "Waste"; "Knife"; "Chick";
   "Hydrogen"; "Runaway"; "Dust storm"; "Harbour"; "Tunic"; "Tempo"; "Libra"; "Sari";
   "Road"; "Teacher"; "Heater"; "Senator"; "Walker"; "Zucchini"; "Intelligence"; "Lentil";
   "Mayor"; "Train"; "Dead"; "Disconnection"; "Hammock"; "Tintype"; "Depressive"; "Hell";
   "Gold"; "Inquiry"; "Dipstick"; "Analgesia"; "Tsunami"; "Blazer"; "Mantua";
   "Stock-in-trade"; "Safe"; "Discount"; "Flintlock"; "Titanium"; "Gender"; "Writing";
   "Delivery"; "Visit"; "Hen"; "Laundry"; "Positive"; "Wine"; "Bugle"; "Enquiry";
   "Counter-force"; "Conference"; "Birch"; "Assistance"; "Spine"; "Daniel"; "Boatyard";
   "Twister"; "Turret"; "Neurobiologist"; "Nail"; "Tepee"; "Collar"; "Planter"; "Random";
   "Cheese"; "Fruit"; "Fifth"; "January"; "Sabre"; "Push"; "Chronometer"; "Cactus";
   "Hydrant"; "Scallion"; "Snow"; "Palm"; "Permission"; "Sing"; "Gem"; "Extent";
   "Nightgown"; "Cement"; "Employ"; "Screw-up"; "Macaroni"; "Doubt"; "Hypothermia";
   "Parsnip"; "South africa"; "Contract"; "Manx"; "Cowboy"; "Corduroy"; "Life"; "Call";
   "Vast"; "Cornerstone"; "Self"; "Issue"; "Octagon"; "Sweat"; "Peacoat"; "Jury";
   "Millimeter"; "Slip"; "September"; "Ambassador"; "Lead"; "Saviour"; "Violin"; "Witch";
   "Alphabet"; "Breakpoint"; "Patient"; "Calcification"; "Atom"].

(** [generateRandomPseudonym], for seeds that are non-negative integers; an
    index out of the array reads [undefined], which the template literal
    prints. *)
Definition generateRandomPseudonym (seed1 seed2 : nat) : string :=
  default "undefined" (ADJECTIVES !! (seed1 mod length ADJECTIVES))
  +:+ " " +:+ default "undefined" (NOUNS !! (seed2 mod length NOUNS)).

(** The characters of a string. *)
Fixpoint chars (s : string) : list ascii :=
  match s with
  | EmptyString => []
  | String c s' => c :: chars s'
  end.

(** What one request can do to the storage. *)
Inductive transition : StateManager -> StateManager -> Prop :=
  | transition_none st : transition st st
  | transition_stats st o : transition st (incrementStats st o)
  | transition_add st o : transition st (incrementStats (addIdentity st o) o)
  | transition_login st body now :
      linkCheck st body = true ->
      identitiesTotal (originDataOf st (toOrigin body)) ≠ 0 ->
      transition st (loggedIn st body now)
  | transition_logout st o : transition st (loggedOut st o)
  | transition_link st from to :
      from ≠ to -> linkExists st from to = false ->
      transition st (incrementStats (link st from to) from)
  | transition_unlink st from to :
      transition st (incrementStats (deauthorize (unlink st from to) from to) from).

(** Every origin with a session has an identity of its own. *)
Definition sessionsHaveIdentity (m : StateManager) : Prop :=
  ∀ o : TOrigin,
    currentSession (originDataOf m o) ≠ None -> identitiesTotal (originDataOf m o) ≠ 0.

(** Every session that borrows the identities of another origin is covered
    by a link from that origin. *)
Definition sessionsLinked (m : StateManager) : Prop :=
  ∀ (o : TOrigin) (s : ISession),
    currentSession (originDataOf m o) = Some s ->
    deriviationOrigin s = o ∨ linkExists m (deriviationOrigin s) o = true.

(** ** The method guard (utils.ts) *)

(** [SNAP_METHODS.protected] of the shared package: the protected methods,
    by kind and by name. *)
Variable SNAP_METHODS_protected : gmap string (gmap string string).
(** [process.env.MSQ_SNAP_SITE_ORIGIN], the text [JSON.parse] reads. *)
Variable MSQ_SNAP_SITE_ORIGIN_ENV : string.

(** [Object.keys(SNAP_METHODS.protected).flatMap((key) =>
    Object.values(SNAP_METHODS.protected[key]))] *)
Definition PROTECTED_METHODS : list string :=
  key ← (map_to_list SNAP_METHODS_protected).*1;
  (map_to_list (default ∅ (SNAP_METHODS_protected !! key))).*2.

(** The double quote of the error message. *)
Definition DQUOTE : string := String "034"%char EmptyString.

Definition guardMethods (method : string) (origin : TOrigin) : Result unit :=
  if negb (bool_decide (method ∈ PROTECTED_METHODS)) then Ok ()
  else if negb (isMasquerade origin)
  then Throw (Err PROTECTED_METHOD
                ("Method " +:+ method
                 +:+ " can only be executed from the Masquerade website ("
                 +:+ DQUOTE +:+ origin +:+ DQUOTE +:+ " != "
                 +:+ MSQ_SNAP_SITE_ORIGIN_ENV +:+ ")"))
  else Ok ().

(** The user declines every dialog of a sequence of requests. *)
Definition allDeclined (reqs : list (Request * Env)) : Prop :=
  Forall (λ re, userAgrees re.2 = false) reqs.

(** The errors a handler raises itself, by [err] and [unreacheable]: the
    throw sites of identity.ts.  A failure of a collaborator (loading or
    saving the storage, the dialog, the entropy of the wallet) is not one of
    them and is not part of this model. *)
Definition ownErrors (req : Request) : list MsqError :=
  match req with
  | ReqLogin _ =>
      [Err UNAUTHORIZED "Unable to login without a link";
       Unreacheable "login - no origin data found"]
  | ReqSign _ _ | ReqGetPublicKey _ _ => [Err UNAUTHORIZED "Log in first"]
  | ReqLink _ _ => [Err INVALID_INPUT "Unable to link to itself"]
  | _ => []
  end.

(** * Properties *)

(** Unfolds the monad and the effects of a handler. *)
Ltac handler_simpl :=
  unfold run, mbind, Handler_bind, mret, Handler_ret, when, err, unreacheable,
    StateManager_make, persist, snap_dialog, getTime;
  simpl.

(** ** Strings *)

Lemma string_app_inv (s1 s2 t1 t2 : string) :
  String.length s1 = String.length s2 ->
  s1 +:+ t1 = s2 +:+ t2 -> s1 = s2 ∧ t1 = t2.
Proof.
  revert s2. induction s1 as [|c s1 IH]; intros [|c' s2] Hlen Heq;
    simpl in *; try discriminate.
  - done.
  - injection Heq as -> Heq. injection Hlen as Hlen.
    destruct (IH _ Hlen Heq) as [-> ->]. done.
Qed.

Lemma string_length_app (s t : string) :
  String.length (s +:+ t) = String.length s + String.length t.
Proof. induction s as [|c s IH]; simpl; [done | by rewrite IH]. Qed.

Lemma string_app_inv_tail (s1 s2 t : string) :
  s1 +:+ t = s2 +:+ t -> s1 = s2.
Proof.
  intros Heq. apply (string_app_inv s1 s2 t t); [|done].
  apply (f_equal String.length) in Heq.
  rewrite !string_length_app in Heq. lia.
Qed.

Lemma entropySalt_label (origin : TOrigin) (identityId : TIdentityId) (internalSalt : string) :
  entropySalt origin identityId internalSalt = derivationLabel origin identityId internalSalt.
Proof. reflexivity. Qed.

Lemma entropySalt_inj_origin (o o' : TOrigin) (i : TIdentityId) (p : string) :
  entropySalt o i p = entropySalt o' i p -> o = o'.
Proof.
  unfold entropySalt. intros Heq.
  do 3 apply String.app_inj in Heq.
  by apply string_app_inv_tail in Heq.
Qed.

Lemma entropySalt_inj_identityId (o : TOrigin) (i i' : TIdentityId) (p : string) :
  entropySalt o i p = entropySalt o i' p -> i = i'.
Proof.
  unfold entropySalt. intros Heq.
  do 5 apply String.app_inj in Heq.
  apply string_app_inv_tail in Heq.
  by apply (inj pretty) in Heq.
Qed.

Lemma entropySalt_inj_internalSalt (o : TOrigin) (i : TIdentityId) (p p' : string) :
  entropySalt o i p = entropySalt o i p' -> p = p'.
Proof.
  unfold entropySalt. intros Heq.
  by do 7 apply String.app_inj in Heq.
Qed.

(** ** Key derivation *)

(** C4: the derived private key is the one of the reference algorithm: the
    entropy of the label built from the namespace tag, the origin, the
    identity index and the purpose label, with the custom salt appended when
    there is one, hashed with SHA-256; it has 32 bytes, as every SHA-256
    digest has, and the signing identity is the key pair of that private
    key. *)
Theorem getEntropy_is_reference
    (sha256_length : ∀ bs, length (sha256 bs) = 32)
    (origin : TOrigin) (identityId : TIdentityId) (purposeLabel : string)
    (customSalt : option TBlob) :
  getEntropy origin identityId purposeLabel customSalt
    = derive_reference origin identityId purposeLabel customSalt
  ∧ length (getEntropy origin identityId purposeLabel customSalt) = 32
  ∧ getSignIdentity origin identityId customSalt
    = fromSecretKey
        (derive_reference origin identityId ("identity-sign" +:+ LF +:+ "shared") customSalt).
Proof.
  assert (Href : ∀ p, getEntropy origin identityId p customSalt
                      = derive_reference origin identityId p customSalt).
  { intros p. unfold getEntropy, derive_reference, entropySource.
    rewrite entropySalt_label.
    destruct customSalt as [cs|]; simpl; [done | by rewrite app_nil_r]. }
  split; [apply Href |]. split.
  - unfold getEntropy. apply sha256_length.
  - unfold getSignIdentity. by rewrite Href.
Qed.


(** ** References and the store *)

Lemma deref_getOriginData (m : StateManager) (o : TOrigin) :
  deref m (getOriginData m o) = originDataOf m o.
Proof.
  unfold getOriginData, deref, originDataOf.
  destruct (originData (state m) !! o) eqn:Hd; simpl; by rewrite ?Hd.
Qed.

Lemma originDataOf_with_originData (od : gmap string IOriginData) (m : StateManager) (o : TOrigin) :
  originDataOf (with_originData od m) o = default makeDefaultOriginData (od !! o).
Proof. reflexivity. Qed.

Lemma originDataOf_incrementStats (m : StateManager) (o o' : TOrigin) :
  originDataOf (incrementStats m o) o' = originDataOf m o'.
Proof. reflexivity. Qed.

(** Assigning the session through a reference and storing the reference
    under its own key leaves the entry of that key with the new session. *)
Lemma assign_then_set (s : option ISession) (m : StateManager) (o : TOrigin) :
  let '(m', r) := assignCurrentSession s m (getOriginData m o) in
  setOriginData m' o r
  = with_originData (<[o := with_currentSession s (originDataOf m o)]> (originData (state m))) m.
Proof.
  unfold getOriginData, originDataOf, setOriginData.
  destruct (originData (state m) !! o) as [d|] eqn:Hd; simpl.
  - unfold with_originData, originDataOf; simpl.
    rewrite lookup_alter_eq, Hd. simpl. by rewrite insert_alter_eq.
  - done.
Qed.

(** ** Login *)

Lemma login_run (body : IIdentityLoginRequest) (env : Env) (st : StateManager) :
  run (protected_handleIdentityLogin body) env st
  = if negb (linkCheck st body)
    then (Throw (Err UNAUTHORIZED "Unable to login without a link"), mkWorld st [])
    else if bool_decide (identitiesTotal (originDataOf st (toOrigin body)) = 0)
    then (Throw (Unreacheable "login - no origin data found"), mkWorld st [])
    else (Ok true, mkWorld (loggedIn st body (nowMs env)) [EvPersist]).
Proof.
  unfold linkCheck, loggedIn, loginSession, protected_handleIdentityLogin.
  handler_simpl. rewrite deref_getOriginData.
  generalize (assign_then_set
    (Some {| deriviationOrigin := default (toOrigin body) (withLinkedOrigin body);
             identityId := withIdentityId body; timestampMs := nowMs env |})
    st (toOrigin body)).
  destruct (assignCurrentSession _ st (getOriginData st (toOrigin body))) as [m' r].
  intros ->.
  destruct (bool_decide (identitiesTotal (originDataOf st (toOrigin body)) = 0));
    destruct (withLinkedOrigin body) as [linked|]; simpl; try done;
    destruct (decide (linked = toOrigin body)) as [Heq|Hne];
    rewrite ?(bool_decide_eq_true_2 _ Heq), ?(bool_decide_eq_false_2 _ Hne),
      ?(bool_decide_eq_true_2 (linked ≠ toOrigin body)),
      ?(bool_decide_eq_false_2 (linked ≠ toOrigin body)) by auto;
    simpl; try done;
    destruct (linkExists st linked (toOrigin body)); done.
Qed.

(** ** Logout, link and unlink, case by case *)

Lemma logout_run (origin : TOrigin) (env : Env) (st : StateManager) :
  run (handleIdentityLogoutRequest origin) env st
  = match currentSession (originDataOf st origin) with
    | None => (Ok true, mkWorld st [])
    | Some _ =>
        if userAgrees env
        then (Ok true, mkWorld (loggedOut st origin) [EvDialog; EvPersist])
        else (Ok false, mkWorld st [EvDialog])
    end.
Proof.
  unfold loggedOut, handleIdentityLogoutRequest.
  handler_simpl. rewrite deref_getOriginData.
  generalize (assign_then_set None st origin).
  destruct (assignCurrentSession None st (getOriginData st origin)) as [m' r].
  intros ->.
  destruct (currentSession (originDataOf st origin)); [|done].
  handler_simpl. by destruct (userAgrees env).
Qed.

Lemma link_run (body : IIdentityLinkRequest) (origin : TOrigin) (env : Env) (st : StateManager) :
  run (handleIdentityLinkRequest body origin) env st
  = if bool_decide (origin = link_withOrigin body)
    then (Throw (Err INVALID_INPUT "Unable to link to itself"), mkWorld st [])
    else if linkExists st origin (link_withOrigin body)
    then (Ok true, mkWorld st [])
    else if userAgrees env
    then (Ok true,
          mkWorld (incrementStats (link st origin (link_withOrigin body)) origin)
            [EvDialog; EvPersist])
    else (Ok false, mkWorld st [EvDialog]).
Proof.
  unfold handleIdentityLinkRequest. handler_simpl.
  destruct (bool_decide (origin = link_withOrigin body)); simpl; [done|].
  destruct (linkExists st origin (link_withOrigin body)); simpl; [done|].
  by destruct (userAgrees env).
Qed.

Lemma unlink_run (body : IIdentityUnlinkRequest) (origin : TOrigin) (env : Env)
    (st : StateManager) :
  run (handleIdentityUnlinkRequest body origin) env st
  = if negb (linkExists st origin (unlink_withOrigin body))
    then (Ok true, mkWorld st [])
    else if userAgrees env
    then (Ok true,
          mkWorld
            (incrementStats
               (deauthorize (unlink st origin (unlink_withOrigin body)) origin
                  (unlink_withOrigin body))
               origin)
            [EvDialog; EvPersist])
    else (Ok false, mkWorld st [EvDialog]).
Proof.
  unfold handleIdentityUnlinkRequest, deauthorize. handler_simpl.
  destruct (linkExists st origin (unlink_withOrigin body)); simpl; [|done].
  destruct (userAgrees env); simpl; [|done].
  set (m1 := unlink st origin (unlink_withOrigin body)).
  rewrite deref_getOriginData.
  destruct (currentSession (originDataOf m1 (unlink_withOrigin body))) as [session|] eqn:Hs;
    [|done].
  destruct (bool_decide (deriviationOrigin session = origin)); [|done].
  unfold getOriginData. unfold originDataOf in Hs.
  destruct (originData (state m1) !! unlink_withOrigin body); [done | discriminate].
Qed.

(** ** The link graph *)

Lemma sameLinks_refl (m : StateManager) : sameLinks m m.
Proof. by intros o. Qed.

Lemma sameLinks_trans (m1 m2 m3 : StateManager) :
  sameLinks m1 m2 -> sameLinks m2 m3 -> sameLinks m1 m3.
Proof.
  intros H12 H23 o. destruct (H12 o) as [<- <-]. apply H23.
Qed.

Lemma sameLinks_wellLinked (m m' : StateManager) :
  sameLinks m m' -> wellLinked m -> wellLinked m'.
Proof.
  intros Hsame (Hcons & Hto & Hfrom & Hself).
  repeat split.
  - destruct (Hsame a) as [-> _], (Hsame b) as [_ ->]. apply Hcons.
  - destruct (Hsame a) as [-> _], (Hsame b) as [_ ->]. apply Hcons.
  - intros o. destruct (Hsame o) as [-> _]. apply Hto.
  - intros o. destruct (Hsame o) as [_ ->]. apply Hfrom.
  - intros o. destruct (Hsame o) as [-> _]. apply Hself.
Qed.

Lemma sameLinks_incrementStats (m : StateManager) (o : TOrigin) :
  sameLinks m (incrementStats m o).
Proof. by intros o'. Qed.

(** Replacing an entry by one with the same link lists. *)
Lemma sameLinks_insert (m : StateManager) (o : TOrigin) (d : IOriginData) :
  linksTo d = linksTo (originDataOf m o) ->
  linksFrom d = linksFrom (originDataOf m o) ->
  sameLinks m (with_originData (<[o := d]> (originData (state m))) m).
Proof.
  intros Hto Hfrom o'. rewrite originDataOf_with_originData.
  destruct (decide (o = o')) as [<-|Hne].
  - by rewrite lookup_insert_eq.
  - by rewrite lookup_insert_ne.
Qed.

Lemma sameLinks_alter_session (m : StateManager) (o : TOrigin) (s : option ISession) :
  sameLinks m (with_originData (alter (with_currentSession s) o (originData (state m))) m).
Proof.
  intros o'. rewrite originDataOf_with_originData. unfold originDataOf.
  destruct (decide (o = o')) as [<-|Hne].
  - rewrite lookup_alter_eq. by destruct (originData (state m) !! o).
  - by rewrite lookup_alter_ne.
Qed.

Lemma sameLinks_addIdentity (m : StateManager) (o : TOrigin) :
  sameLinks m (addIdentity m o).
Proof. by apply sameLinks_insert. Qed.

Lemma sameLinks_loggedIn (m : StateManager) (body : IIdentityLoginRequest) (now : TTimestamp) :
  sameLinks m (loggedIn m body now).
Proof. by apply sameLinks_insert. Qed.

Lemma sameLinks_loggedOut (m : StateManager) (o : TOrigin) :
  sameLinks m (loggedOut m o).
Proof. by apply sameLinks_insert. Qed.

Lemma sameLinks_deauthorize (m : StateManager) (origin target : TOrigin) :
  sameLinks m (deauthorize m origin target).
Proof.
  unfold deauthorize.
  destruct (currentSession (originDataOf m target)) as [s|]; [|apply sameLinks_refl].
  case_bool_decide; [apply sameLinks_alter_session | apply sameLinks_refl].
Qed.

Lemma linkExists_true (m : StateManager) (from to : TOrigin) :
  linkExists m from to = true ↔ to ∈ linksTo (originDataOf m from).
Proof. unfold linkExists. apply bool_decide_eq_true. Qed.

Lemma linkExists_false (m : StateManager) (from to : TOrigin) :
  linkExists m from to = false ↔ to ∉ linksTo (originDataOf m from).
Proof. unfold linkExists. apply bool_decide_eq_false. Qed.

(** The entries after an edge is added. *)
Lemma link_new (m : StateManager) (from to : TOrigin) :
  from ≠ to -> linkExists m from to = false ->
  ∀ o : TOrigin,
    linksTo (originDataOf (link m from to) o)
      = (if decide (o = from) then linksTo (originDataOf m o) ++ [to]
         else linksTo (originDataOf m o))
    ∧ linksFrom (originDataOf (link m from to) o)
      = (if decide (o = to) then linksFrom (originDataOf m o) ++ [from]
         else linksFrom (originDataOf m o))
    ∧ identitiesTotal (originDataOf (link m from to) o) = identitiesTotal (originDataOf m o)
    ∧ currentSession (originDataOf (link m from to) o) = currentSession (originDataOf m o).
Proof.
  intros Hne Hex o. unfold link.
  rewrite Hex, bool_decide_eq_false_2 by done. simpl.
  rewrite originDataOf_with_originData.
  rewrite (lookup_insert_ne _ from to) by done.
  fold (originDataOf m to).
  destruct (decide (o = to)) as [->|Hto].
  - rewrite lookup_insert_eq. simpl.
    by rewrite decide_False by done.
  - rewrite lookup_insert_ne by done.
    destruct (decide (o = from)) as [->|Hfrom].
    + by rewrite lookup_insert_eq.
    + by rewrite lookup_insert_ne.
Qed.

Lemma link_old (m : StateManager) (from to : TOrigin) :
  from = to ∨ linkExists m from to = true -> link m from to = m.
Proof.
  intros H. unfold link.
  destruct H as [->| ->]; [by rewrite bool_decide_eq_true_2 | by rewrite orb_true_r].
Qed.

(** The entries after an edge is removed. *)
Lemma unlink_entries (m : StateManager) (from to o : TOrigin) :
  linksTo (originDataOf (unlink m from to) o)
    = (if decide (o = from) then without to (linksTo (originDataOf m o))
       else linksTo (originDataOf m o))
  ∧ linksFrom (originDataOf (unlink m from to) o)
    = (if decide (o = to) then without from (linksFrom (originDataOf m o))
       else linksFrom (originDataOf m o))
  ∧ identitiesTotal (originDataOf (unlink m from to) o) = identitiesTotal (originDataOf m o)
  ∧ currentSession (originDataOf (unlink m from to) o) = currentSession (originDataOf m o).
Proof.
  unfold unlink. rewrite originDataOf_with_originData. unfold originDataOf.
  destruct (decide (o = to)) as [->|Hto].
  - rewrite lookup_alter_eq.
    destruct (decide (to = from)) as [->|Hfrom].
    + rewrite lookup_alter_eq. by destruct (originData (state m) !! from).
    + rewrite lookup_alter_ne by done. by destruct (originData (state m) !! to).
  - rewrite lookup_alter_ne by done.
    destruct (decide (o = from)) as [->|Hfrom].
    + rewrite lookup_alter_eq. by destruct (originData (state m) !! from).
    + by rewrite lookup_alter_ne.
Qed.

Lemma elem_of_without (o x : TOrigin) (l : list TOrigin) :
  x ∈ without o l ↔ x ≠ o ∧ x ∈ l.
Proof. unfold without. by rewrite list_elem_of_filter. Qed.

Lemma wellLinked_link (m : StateManager) (from to : TOrigin) :
  wellLinked m -> wellLinked (link m from to).
Proof.
  intros Hwf.
  destruct (decide (from = to)) as [Heq|Hne]; [by rewrite link_old by auto|].
  destruct (linkExists m from to) eqn:Hex; [by rewrite link_old by auto|].
  pose proof (link_new m from to Hne Hex) as Hnew.
  apply linkExists_false in Hex.
  destruct Hwf as (Hcons & Hto & Hfrom & Hself). unfold linksConsistent in Hcons.
  assert (Hex' : from ∉ linksFrom (originDataOf m to)) by (by rewrite <- Hcons).
  split; [|split; [|split]].
  - intros a b.
    destruct (Hnew a) as (-> & _), (Hnew b) as (_ & -> & _).
    specialize (Hcons a b). clear -Hcons Hex Hex' Hne.
    repeat case_decide; subst; rewrite ?elem_of_app, ?list_elem_of_singleton;
      intuition congruence.
  - intros o. destruct (Hnew o) as (-> & _).
    case_decide; subst; [|done].
    apply NoDup_app. split_and!; [done | | apply NoDup_singleton].
    intros x Hx ->%list_elem_of_singleton. done.
  - intros o. destruct (Hnew o) as (_ & -> & _).
    case_decide; subst; [|done].
    apply NoDup_app. split_and!; [done | | apply NoDup_singleton].
    intros x Hx ->%list_elem_of_singleton. done.
  - intros o. destruct (Hnew o) as (-> & _). specialize (Hself o). clear -Hself Hne.
    case_decide; subst; rewrite ?elem_of_app, ?list_elem_of_singleton; intuition congruence.
Qed.

Lemma wellLinked_unlink (m : StateManager) (from to : TOrigin) :
  wellLinked m -> wellLinked (unlink m from to).
Proof.
  intros (Hcons & Hto & Hfrom & Hself). unfold linksConsistent in Hcons.
  split; [|split; [|split]].
  - intros a b.
    destruct (unlink_entries m from to a) as (-> & _).
    destruct (unlink_entries m from to b) as (_ & -> & _).
    specialize (Hcons a b). clear -Hcons.
    repeat case_decide; subst; rewrite ?elem_of_without; intuition congruence.
  - intros o. destruct (unlink_entries m from to o) as (-> & _).
    case_decide; [by apply NoDup_filter | done].
  - intros o. destruct (unlink_entries m from to o) as (_ & -> & _).
    case_decide; [by apply NoDup_filter | done].
  - intros o. destruct (unlink_entries m from to o) as (-> & _). specialize (Hself o).
    clear -Hself. case_decide; rewrite ?elem_of_without; intuition congruence.
Qed.

Lemma wellLinked_emptyState (s0 : Stats) : wellLinked (emptyState s0).
Proof.
  unfold wellLinked, linksConsistent, emptyState, originDataOf. simpl.
  setoid_rewrite lookup_empty. simpl.
  split_and!; intros; rewrite ?elem_of_nil; try done; try apply NoDup_nil_2; by intros [].
Qed.

(** ** Signing and the queries, case by case *)

Lemma sessionOrImplicit_run (m : StateManager) (origin : TOrigin) (env : Env) (w : World) :
  sessionOrImplicit m origin env w
  = match currentSession (originDataOf m origin) with
    | Some session => (Ok session, w)
    | None =>
        if isMasquerade origin
        then (Ok {| deriviationOrigin := origin; identityId := 0; timestampMs := 0 |}, w)
        else (Throw (Err UNAUTHORIZED "Log in first"), w)
    end.
Proof.
  unfold sessionOrImplicit. rewrite deref_getOriginData.
  destruct (currentSession (originDataOf m origin)); [done|].
  by destruct (isMasquerade origin).
Qed.

Lemma sign_run (body : IIdentitySignRequest) (origin : TOrigin) (env : Env) (st : StateManager) :
  run (handleIdentitySign body origin) env st
  = match sessionOrImplicit st origin env (mkWorld st []) with
    | (Ok session, _) =>
        (Ok (signWith
               (getSignIdentity (deriviationOrigin session) (identityId session) (sign_salt body))
               (challenge body)),
         mkWorld (incrementStats st origin) [EvPersist])
    | (Throw e, _) => (Throw e, mkWorld st [])
    end.
Proof.
  unfold handleIdentitySign. handler_simpl. rewrite sessionOrImplicit_run.
  destruct (currentSession (originDataOf st origin)); [done|].
  by destruct (isMasquerade origin).
Qed.

Lemma getPublicKey_run (body : IIdentityGetPublicKeyRequest) (origin : TOrigin) (env : Env)
    (st : StateManager) :
  run (handleIdentityGetPublicKey body origin) env st
  = match sessionOrImplicit st origin env (mkWorld st []) with
    | (Ok session, _) =>
        (Ok (publicKeyRaw
               (getSignIdentity (deriviationOrigin session) (identityId session) (pk_salt body))),
         mkWorld (incrementStats st origin) [EvPersist])
    | (Throw e, _) => (Throw e, mkWorld st [])
    end.
Proof.
  unfold handleIdentityGetPublicKey. handler_simpl. rewrite sessionOrImplicit_run.
  destruct (currentSession (originDataOf st origin)); [done|].
  by destruct (isMasquerade origin).
Qed.

Lemma pushOptions_seq (origin : TOrigin) (remaining i : nat) (options : list string) :
  pushOptions origin remaining i options
  = options ++ map (λ i, principalText (getSignIdentity origin i None)) (seq i remaining).
Proof.
  revert i options. induction remaining as [|n IH]; intros i options; simpl.
  - by rewrite app_nil_r.
  - rewrite IH. by rewrite <- app_assoc.
Qed.

Lemma pushLinkedOptions_map (m : StateManager) (origins : list TOrigin)
    (result : list (TOrigin * list string)) :
  pushLinkedOptions m origins result
  = result ++ map (λ o, (o, principalsOf o (identitiesTotal (originDataOf m o)))) origins.
Proof.
  revert result. induction origins as [|o origins IH]; intros result; simpl.
  - by rewrite app_nil_r.
  - rewrite IH, deref_getOriginData, pushOptions_seq. by rewrite <- app_assoc.
Qed.

Lemma getLoginOptions_run (body : IIdentityGetLoginOptionsRequest) (env : Env)
    (st : StateManager) :
  run (protected_handleIdentityGetLoginOptions body) env st
  = (Ok ((forOrigin body, principalsOf (forOrigin body)
                            (identitiesTotal (originDataOf st (forOrigin body))))
         :: map (λ o, (o, principalsOf o (identitiesTotal (originDataOf st o))))
              (linksFrom (originDataOf st (forOrigin body)))),
     mkWorld (incrementStats st (forOrigin body)) [EvPersist]).
Proof.
  unfold protected_handleIdentityGetLoginOptions. handler_simpl.
  rewrite pushLinkedOptions_map, !deref_getOriginData, pushOptions_seq.
  reflexivity.
Qed.

(** ** Every request keeps the link graph well formed *)

Lemma wellLinked_storageAfter (req : Request) (env : Env) (st : StateManager) :
  wellLinked st -> wellLinked (storageAfter req env st).
Proof.
  intros Hwf. destruct req as [body|body|body|o|body o|body o|body o|body o|o|o];
    lazy beta iota delta [storageAfter].
  - change (wellLinked (incrementStats (addIdentity st (add_toOrigin body)) (add_toOrigin body))).
    eapply sameLinks_wellLinked; [|done].
    eapply sameLinks_trans; [apply sameLinks_addIdentity | apply sameLinks_incrementStats].
  - rewrite login_run.
    destruct (negb (linkCheck st body)); [done|].
    case_bool_decide; [done|]. simpl.
    eapply sameLinks_wellLinked; [apply sameLinks_loggedIn | done].
  - rewrite getLoginOptions_run. done.
  - rewrite logout_run.
    destruct (currentSession (originDataOf st o)); [|done].
    destruct (userAgrees env); [|done]. simpl.
    eapply sameLinks_wellLinked; [apply sameLinks_loggedOut | done].
  - rewrite sign_run. by destruct (sessionOrImplicit st o env _) as [[?|?] ?].
  - rewrite getPublicKey_run. by destruct (sessionOrImplicit st o env _) as [[?|?] ?].
  - rewrite link_run.
    case_bool_decide; [done|].
    destruct (linkExists st o (link_withOrigin body)); [done|].
    destruct (userAgrees env); [|done]. simpl.
    eapply sameLinks_wellLinked; [apply sameLinks_incrementStats |].
    by apply wellLinked_link.
  - rewrite unlink_run.
    destruct (negb (linkExists st o (unlink_withOrigin body))); [done|].
    destruct (userAgrees env); [|done]. simpl.
    eapply sameLinks_wellLinked; [apply sameLinks_incrementStats |].
    eapply sameLinks_wellLinked; [apply sameLinks_deauthorize |].
    by apply wellLinked_unlink.
  - done.
  - done.
Qed.

Lemma reachable_wellLinked (s0 : Stats) (st : StateManager) :
  reachable s0 st -> wellLinked st.
Proof.
  induction 1 as [|st req env _ IH].
  - apply wellLinked_emptyState.
  - by apply wellLinked_storageAfter.
Qed.

Lemma reachable_storageAfterAll (s0 : Stats) (reqs : list (Request * Env)) (st : StateManager) :
  reachable s0 st -> reachable s0 (storageAfterAll reqs st).
Proof.
  revert st. induction reqs as [|[req env] reqs IH]; intros st Hst; simpl; [done|].
  apply IH. by constructor.
Qed.

Lemma originDataOf_addIdentity (m : StateManager) (o o' : TOrigin) :
  originDataOf (addIdentity m o) o'
  = if decide (o' = o)
    then with_identitiesTotal (S (identitiesTotal (originDataOf m o))) (originDataOf m o)
    else originDataOf m o'.
Proof.
  unfold addIdentity. rewrite originDataOf_with_originData.
  case_decide as Ho; [subst; by rewrite lookup_insert_eq | by rewrite lookup_insert_ne].
Qed.

Lemma originDataOf_emptyState (s0 : Stats) (o : TOrigin) :
  originDataOf (emptyState s0) o = makeDefaultOriginData.
Proof. unfold originDataOf, emptyState. simpl. by rewrite lookup_empty. Qed.

Lemma filter_eq_NoDup (x : TOrigin) (l : list TOrigin) :
  NoDup l -> x ∈ l -> length (filter (λ y, y = x) l) = 1.
Proof.
  induction 1 as [|y l Hy Hnd IH]; intros Hx; [by apply elem_of_nil in Hx|].
  destruct (decide (y = x)) as [->|Hne].
  - rewrite filter_cons_True by done. simpl. f_equal.
    clear IH Hx Hnd. induction l as [|z l IH]; [done|].
    apply not_elem_of_cons in Hy as [Hz Hl].
    rewrite filter_cons_False by done. by apply IH.
  - rewrite filter_cons_False by done.
    apply elem_of_cons in Hx as [->|Hx]; [done | by apply IH].
Qed.

(** * Main statements *)

(** ** Sessions *)

(** C1 (amended): login does not compare the identity index with
    identitiesTotal of the derivation origin.  Once the link check passes,
    it throws the unreachable error exactly when identitiesTotal of the
    login origin is 0, and otherwise succeeds, for any index, recording the
    requested session. *)
Theorem login_checks_login_origin_total
    (body : IIdentityLoginRequest) (env : Env) (st : StateManager) :
  (∀ linked, withLinkedOrigin body = Some linked ->
     linked = toOrigin body ∨ linkExists st linked (toOrigin body) = true) ->
  (identitiesTotal (originDataOf st (toOrigin body)) = 0 ->
     run (protected_handleIdentityLogin body) env st
     = (Throw (Unreacheable "login - no origin data found"), mkWorld st []))
  ∧ (identitiesTotal (originDataOf st (toOrigin body)) ≠ 0 ->
     ∃ st', run (protected_handleIdentityLogin body) env st = (Ok true, mkWorld st' [EvPersist])
       ∧ currentSession (originDataOf st' (toOrigin body))
         = Some {| deriviationOrigin := default (toOrigin body) (withLinkedOrigin body);
                   identityId := withIdentityId body;
                   timestampMs := nowMs env |}).
Proof.
  intros Hlink. rewrite login_run.
  assert (Hcheck : linkCheck st body = true).
  { unfold linkCheck. destruct (withLinkedOrigin body) as [linked|]; [|done].
    destruct (Hlink linked eq_refl) as [->| ->];
      [by rewrite bool_decide_eq_true_2 | by rewrite orb_true_r]. }
  rewrite Hcheck. simpl. split; intros Htotal.
  - by rewrite bool_decide_eq_true_2.
  - rewrite bool_decide_eq_false_2 by done.
    eexists. split; [done|].
    unfold loggedIn. rewrite originDataOf_incrementStats, originDataOf_with_originData.
    by rewrite lookup_insert_eq.
Qed.

(** C2: a login whose derivation origin differs from the login origin
    throws Unauthorized when there is no link from the derivation origin to
    the login origin; a login whose derivation origin is the login origin,
    with an index below identitiesTotal, succeeds and records the session. *)
Theorem login_requires_link
    (body : IIdentityLoginRequest) (env : Env) (st : StateManager) :
  (∀ linked, withLinkedOrigin body = Some linked -> linked ≠ toOrigin body ->
     linkExists st linked (toOrigin body) = false ->
     run (protected_handleIdentityLogin body) env st
     = (Throw (Err UNAUTHORIZED "Unable to login without a link"), mkWorld st []))
  ∧ (withLinkedOrigin body = None ∨ withLinkedOrigin body = Some (toOrigin body) ->
     withIdentityId body < identitiesTotal (originDataOf st (toOrigin body)) ->
     ∃ st', run (protected_handleIdentityLogin body) env st = (Ok true, mkWorld st' [EvPersist])
       ∧ currentSession (originDataOf st' (toOrigin body))
         = Some {| deriviationOrigin := toOrigin body;
                   identityId := withIdentityId body;
                   timestampMs := nowMs env |}).
Proof.
  split.
  - intros linked Hlinked Hne Hex. rewrite login_run. unfold linkCheck.
    by rewrite Hlinked, Hex, bool_decide_eq_false_2.
  - intros Hsame Hlt. rewrite login_run.
    assert (Hcheck : linkCheck st body = true).
    { unfold linkCheck. destruct Hsame as [-> | ->]; [done|].
      by rewrite bool_decide_eq_true_2. }
    rewrite Hcheck. simpl. rewrite bool_decide_eq_false_2 by lia.
    eexists. split; [done|].
    unfold loggedIn, loginSession.
    rewrite originDataOf_incrementStats, originDataOf_with_originData, lookup_insert_eq.
    by destruct Hsame as [-> | ->].
Qed.

(** C3: when the user declines the confirmation dialog of link, unlink or
    logout, the handler answers false, the storage is unchanged (no edge
    added or removed, no session cleared), and nothing is persisted; the
    dialog is shown for a link that is new, an unlink of an existing edge
    and a logout of an open session. *)
Theorem declined_consent_changes_nothing (st : StateManager) (now : TTimestamp) :
  let env := mkEnv false now in
  (∀ body origin, declined st (run (handleIdentityLinkRequest body origin) env st))
  ∧ (∀ body origin, declined st (run (handleIdentityUnlinkRequest body origin) env st))
  ∧ (∀ origin, declined st (run (handleIdentityLogoutRequest origin) env st))
  ∧ (∀ body origin,
       origin ≠ link_withOrigin body -> linkExists st origin (link_withOrigin body) = false ->
       run (handleIdentityLinkRequest body origin) env st = (Ok false, mkWorld st [EvDialog]))
  ∧ (∀ body origin,
       linkExists st origin (unlink_withOrigin body) = true ->
       run (handleIdentityUnlinkRequest body origin) env st = (Ok false, mkWorld st [EvDialog]))
  ∧ (∀ origin,
       currentSession (originDataOf st origin) ≠ None ->
       run (handleIdentityLogoutRequest origin) env st = (Ok false, mkWorld st [EvDialog])).
Proof.
  assert (Hnil : ∀ r : Result bool, declined st (r, mkWorld st [])).
  { intros r. unfold declined. simpl. split_and!; [done | apply not_elem_of_nil |].
    by intros ?%elem_of_nil. }
  assert (Hasked : declined st (Ok false, mkWorld st [EvDialog])).
  { unfold declined. simpl. split_and!; [done | | done].
    by intros [=]%list_elem_of_singleton. }
  intros env. split_and!.
  - intros body origin. rewrite link_run.
    case_bool_decide; [apply Hnil|].
    destruct (linkExists st origin (link_withOrigin body)); [apply Hnil | apply Hasked].
  - intros body origin. rewrite unlink_run.
    destruct (linkExists st origin (unlink_withOrigin body)); [apply Hasked | apply Hnil].
  - intros origin. rewrite logout_run.
    destruct (currentSession (originDataOf st origin)); [apply Hasked | apply Hnil].
  - intros body origin Hne Hex. rewrite link_run, Hex.
    by rewrite bool_decide_eq_false_2.
  - intros body origin Hex. by rewrite unlink_run, Hex.
  - intros origin Hs. rewrite logout_run.
    by destruct (currentSession (originDataOf st origin)).
Qed.

(** ** The link graph *)

(** C6: in every state reachable from the empty state by any sequence of
    requests of the identity protocol, whatever the user answers, an edge is
    in linksTo of its source iff it is in linksFrom of its target. *)
Theorem reachable_linksConsistent (s0 : Stats) (st : StateManager) (a b : TOrigin) :
  reachable s0 st ->
  b ∈ linksTo (originDataOf st a) ↔ a ∈ linksFrom (originDataOf st b).
Proof.
  intros Hreach. apply reachable_wellLinked in Hreach as (Hcons & _). apply Hcons.
Qed.

(** C7: when the user is asked and confirms the unlink of X from Y, a
    session of X whose derivation origin is Y is cleared, and a session of X
    with any other derivation origin stays. *)
Theorem unlink_cascades_logout
    (body : IIdentityUnlinkRequest) (Y : TOrigin) (env : Env) (st : StateManager)
    (session : ISession) :
  let X := unlink_withOrigin body in
  let r := run (handleIdentityUnlinkRequest body Y) env st in
  currentSession (originDataOf st X) = Some session ->
  EvDialog ∈ trace (snd r) ->
  fst r = Ok true ->
  (deriviationOrigin session = Y -> currentSession (originDataOf (storage (snd r)) X) = None)
  ∧ (deriviationOrigin session ≠ Y ->
       currentSession (originDataOf (storage (snd r)) X) = Some session).
Proof.
  intros X r Hsession. subst r. rewrite unlink_run. fold X.
  destruct (linkExists st Y X); simpl; [|by intros ?%elem_of_nil].
  destruct (userAgrees env); simpl; [|discriminate].
  intros _ _. rewrite originDataOf_incrementStats. unfold deauthorize.
  destruct (unlink_entries st Y X X) as (_ & _ & _ & Hkeep).
  rewrite Hkeep, Hsession.
  split; intros Hd.
  - rewrite bool_decide_eq_true_2 by done.
    rewrite originDataOf_with_originData, lookup_alter_eq.
    by destruct (originData (state (unlink st Y X)) !! X).
  - rewrite bool_decide_eq_false_2 by done. by rewrite Hkeep.
Qed.

(** C8: in a reachable state, linking an edge that exists answers true
    without a dialog and without touching the storage, and so does unlinking
    an edge that does not exist; after a link request that answered true, a
    second one changes nothing, and the edge is once in linksTo of its source
    and once in linksFrom of its target. *)
Theorem link_unlink_idempotent
    (s0 : Stats) (st : StateManager) (A B : TOrigin) (env env' : Env) :
  reachable s0 st ->
  let linkAB := handleIdentityLinkRequest {| link_withOrigin := B |} A in
  let unlinkAB := handleIdentityUnlinkRequest {| unlink_withOrigin := B |} A in
  (linkExists st A B = true -> run linkAB env st = (Ok true, mkWorld st []))
  ∧ (linkExists st A B = false -> run unlinkAB env st = (Ok true, mkWorld st []))
  ∧ (fst (run linkAB env st) = Ok true ->
     let st1 := storage (snd (run linkAB env st)) in
     run linkAB env' st1 = (Ok true, mkWorld st1 [])
     ∧ length (filter (λ x, x = B) (linksTo (originDataOf st1 A))) = 1
     ∧ length (filter (λ x, x = A) (linksFrom (originDataOf st1 B))) = 1).
Proof.
  intros Hreach linkAB unlinkAB.
  pose proof (reachable_wellLinked _ _ Hreach) as Hwf.
  assert (Hagain : ∀ m e, wellLinked m -> linkExists m A B = true ->
                          run linkAB e m = (Ok true, mkWorld m [])).
  { intros m e (_ & _ & _ & Hself) Hex. subst linkAB. rewrite link_run. simpl.
    rewrite Hex. rewrite bool_decide_eq_false_2; [done|].
    intros ->. apply linkExists_true in Hex. by apply Hself in Hex. }
  split_and!.
  - by apply Hagain.
  - intros Hex. subst unlinkAB. rewrite unlink_run. simpl. by rewrite Hex.
  - intros Hok.
    assert (Hst1 : wellLinked (storage (snd (run linkAB env st)))
                   ∧ linkExists (storage (snd (run linkAB env st))) A B = true).
    { subst linkAB. revert Hok. rewrite link_run. simpl.
      case_bool_decide as Hne; [discriminate|].
      destruct (linkExists st A B) eqn:Hex; [done|].
      destruct (userAgrees env); [|discriminate]. simpl. intros _. split.
      - eapply sameLinks_wellLinked; [apply sameLinks_incrementStats |].
        by apply wellLinked_link.
      - apply linkExists_true. rewrite originDataOf_incrementStats.
        destruct (link_new st A B Hne Hex A) as (-> & _).
        rewrite decide_True by done. apply elem_of_app. right. by apply list_elem_of_singleton. }
    destruct Hst1 as [Hwf1 Hex1]. simpl.
    split; [by apply Hagain|].
    apply linkExists_true in Hex1.
    destruct Hwf1 as (Hcons & Hto & Hfrom & _).
    split; apply filter_eq_NoDup; [apply Hto | done | apply Hfrom | by apply Hcons].
Qed.

(** C9 (amended): the login options of an origin are one group for the
    origin itself, then one group per origin of its linksFrom list in stored
    order; the group of a source origin holds, for each index below
    identitiesTotal of that source in increasing order, the text of the
    principal of the key pair derived for (source, index), not its public key.  After two identities are added on A and A is
    linked to B, the options of B are the empty group of B followed by the
    group of A with its two entries. *)
Theorem getLoginOptions_groups
    (body : IIdentityGetLoginOptionsRequest) (env : Env) (st : StateManager) :
  let group (source : TOrigin) :=
    (source,
     map (λ i, principalText (getSignIdentity source i None))
       (seq 0 (identitiesTotal (originDataOf st source)))) in
  fst (run (protected_handleIdentityGetLoginOptions body) env st)
  = Ok (group (forOrigin body) :: map group (linksFrom (originDataOf st (forOrigin body))))
  ∧ (∀ source, length (snd (group source)) = identitiesTotal (originDataOf st source))
  ∧ (∀ (A B : TOrigin) (s0 : Stats) (env1 env2 : Env) (now : TTimestamp),
       A ≠ B ->
       let st' :=
         storageAfterAll
           [(ReqAdd {| add_toOrigin := A |}, env1);
            (ReqAdd {| add_toOrigin := A |}, env2);
            (ReqLink {| link_withOrigin := B |} A, mkEnv true now)]
           (emptyState s0) in
       fst (run (protected_handleIdentityGetLoginOptions {| forOrigin := B |}) env st')
       = Ok [(B, []);
             (A, [principalText (getSignIdentity A 0 None);
                  principalText (getSignIdentity A 1 None)])]).
Proof.
  intros group. split_and!.
  - by rewrite getLoginOptions_run.
  - intros source. simpl. by rewrite length_map, length_seq.
  - intros A B s0 env1 env2 now Hne st'.
    rewrite getLoginOptions_run. simpl. unfold principalsOf.
    pose (st2 := addIdentity (incrementStats (addIdentity (emptyState s0) A) A) A).
    assert (Hst2 : ∀ o, originDataOf (incrementStats st2 A) o
                        = if decide (o = A) then mkOriginData 2 [] [] None
                          else makeDefaultOriginData).
    { intros o. rewrite originDataOf_incrementStats. subst st2.
      rewrite originDataOf_addIdentity, !originDataOf_incrementStats.
      rewrite !originDataOf_addIdentity, (decide_True (P := A = A)) by done.
      rewrite !originDataOf_emptyState. by case_decide. }
    assert (Hex : linkExists (incrementStats st2 A) A B = false).
    { apply linkExists_false. rewrite Hst2, decide_True by done. apply not_elem_of_nil. }
    assert (Hst' : st' = incrementStats (link (incrementStats st2 A) A B) A).
    { subst st'. unfold storageAfterAll. simpl. rewrite link_run. simpl.
      fold st2. by rewrite Hex, bool_decide_eq_false_2. }
    pose proof (link_new (incrementStats st2 A) A B Hne Hex) as Hnew.
    rewrite Hst'. rewrite !originDataOf_incrementStats.
    destruct (Hnew B) as (_ & -> & -> & _).
    rewrite decide_True by done. rewrite Hst2, decide_False by done. simpl.
    rewrite originDataOf_incrementStats.
    destruct (Hnew A) as (_ & _ & -> & _).
    rewrite Hst2, decide_True by done. done.
Qed.

(** C10: with no session stored for the origin, signing throws Unauthorized
    for every origin other than the Masquerade site, and for the Masquerade
    site it signs with the key pair of identity 0 derived for that origin. *)
Theorem sign_without_session
    (body : IIdentitySignRequest) (origin : TOrigin) (env : Env) (st : StateManager) :
  currentSession (originDataOf st origin) = None ->
  (origin ≠ MSQ_SNAP_SITE_ORIGIN ->
     run (handleIdentitySign body origin) env st
     = (Throw (Err UNAUTHORIZED "Log in first"), mkWorld st []))
  ∧ (origin = MSQ_SNAP_SITE_ORIGIN ->
     run (handleIdentitySign body origin) env st
     = (Ok (signWith (getSignIdentity origin 0 (sign_salt body)) (challenge body)),
        mkWorld (incrementStats st origin) [EvPersist])).
Proof.
  intros Hnone. rewrite sign_run, sessionOrImplicit_run, Hnone. unfold isMasquerade.
  split; intros Ho.
  - by rewrite bool_decide_eq_false_2.
  - by rewrite bool_decide_eq_true_2.
Qed.

(** * More of the snap *)

(** ** Entries after each kind of write *)

Lemma originDataOf_loggedIn (m : StateManager) (body : IIdentityLoginRequest) (now : TTimestamp)
    (o : TOrigin) :
  originDataOf (loggedIn m body now) o
  = if decide (o = toOrigin body)
    then with_currentSession (Some (loginSession body now)) (originDataOf m o)
    else originDataOf m o.
Proof.
  unfold loggedIn. rewrite originDataOf_incrementStats, originDataOf_with_originData.
  case_decide as Ho; [subst; by rewrite lookup_insert_eq | by rewrite lookup_insert_ne].
Qed.

Lemma originDataOf_loggedOut (m : StateManager) (origin o : TOrigin) :
  originDataOf (loggedOut m origin) o
  = if decide (o = origin) then with_currentSession None (originDataOf m o)
    else originDataOf m o.
Proof.
  unfold loggedOut. rewrite originDataOf_incrementStats, originDataOf_with_originData.
  case_decide as Ho; [subst; by rewrite lookup_insert_eq | by rewrite lookup_insert_ne].
Qed.

Lemma originDataOf_deauthorize (m : StateManager) (origin target o : TOrigin) :
  originDataOf (deauthorize m origin target) o
  = if decide (o = target)
    then match currentSession (originDataOf m o) with
         | Some session =>
             if bool_decide (deriviationOrigin session = origin)
             then with_currentSession None (originDataOf m o)
             else originDataOf m o
         | None => originDataOf m o
         end
    else originDataOf m o.
Proof.
  unfold deauthorize.
  destruct (decide (o = target)) as [->|Ho].
  - destruct (currentSession (originDataOf m target)) as [session|] eqn:Hs; [|done].
    case_bool_decide; [|done].
    rewrite originDataOf_with_originData, lookup_alter_eq.
    unfold originDataOf in *. by destruct (originData (state m) !! target).
  - destruct (currentSession (originDataOf m target)) as [session|]; [|done].
    case_bool_decide; [|done].
    rewrite originDataOf_with_originData. by rewrite lookup_alter_ne.
Qed.

Lemma link_other (m : StateManager) (from to o : TOrigin) :
  o ≠ from -> o ≠ to -> originDataOf (link m from to) o = originDataOf m o.
Proof.
  intros Hfrom Hto. unfold link.
  destruct (bool_decide (from = to) || linkExists m from to); [done|].
  rewrite originDataOf_with_originData. by rewrite !lookup_insert_ne.
Qed.

Lemma unlink_other (m : StateManager) (from to o : TOrigin) :
  o ≠ from -> o ≠ to -> originDataOf (unlink m from to) o = originDataOf m o.
Proof.
  intros Hfrom Hto. unfold unlink.
  rewrite originDataOf_with_originData. by rewrite !lookup_alter_ne.
Qed.

Lemma stats_link (m : StateManager) (from to : TOrigin) : stats (link m from to) = stats m.
Proof. unfold link. by destruct (bool_decide (from = to) || linkExists m from to). Qed.

Lemma stats_deauthorize (m : StateManager) (origin target : TOrigin) :
  stats (deauthorize m origin target) = stats m.
Proof.
  unfold deauthorize. destruct (currentSession (originDataOf m target)); [|done].
  by case_bool_decide.
Qed.

Lemma linkExists_sameLinks (m m' : StateManager) (from to : TOrigin) :
  sameLinks m m' -> linkExists m' from to = linkExists m from to.
Proof. intros Hsame. unfold linkExists. by destruct (Hsame from) as [-> _]. Qed.

(** ** Each request, in closed form *)

Lemma run_answer {A B} (h : Handler A) (f : A -> B) (env : Env) (st : StateManager) :
  run (a ← h; mret (f a)) env st
  = match run h env st with
    | (Ok a, w) => (Ok (f a), w)
    | (Throw e, w) => (Throw e, w)
    end.
Proof. reflexivity. Qed.

Lemma handle_storage (req : Request) (env : Env) (st : StateManager) :
  storage (snd (run (handle req) env st)) = storageAfter req env st.
Proof.
  destruct req; lazy beta iota delta [handle storageAfter]; rewrite run_answer;
    by destruct (run _ env st) as [[?|?] ?].
Qed.

(** What a request leaves in the storage, by cases on the state it meets. *)
Lemma storageAfter_cases (req : Request) (env : Env) (st : StateManager) :
  storageAfter req env st
  = match req with
    | ReqAdd body => incrementStats (addIdentity st (add_toOrigin body)) (add_toOrigin body)
    | ReqLogin body =>
        if linkCheck st body
           && negb (bool_decide (identitiesTotal (originDataOf st (toOrigin body)) = 0))
        then loggedIn st body (nowMs env) else st
    | ReqGetLoginOptions body => incrementStats st (forOrigin body)
    | ReqLogout origin =>
        match currentSession (originDataOf st origin) with
        | Some _ => if userAgrees env then loggedOut st origin else st
        | None => st
        end
    | ReqSign _ origin | ReqGetPublicKey _ origin =>
        match currentSession (originDataOf st origin) with
        | Some _ => incrementStats st origin
        | None => if isMasquerade origin then incrementStats st origin else st
        end
    | ReqLink body origin =>
        if negb (bool_decide (origin = link_withOrigin body))
           && negb (linkExists st origin (link_withOrigin body))
           && userAgrees env
        then incrementStats (link st origin (link_withOrigin body)) origin else st
    | ReqUnlink body origin =>
        if linkExists st origin (unlink_withOrigin body) && userAgrees env
        then incrementStats
               (deauthorize (unlink st origin (unlink_withOrigin body)) origin
                  (unlink_withOrigin body))
               origin
        else st
    | ReqGetLinks origin => incrementStats st origin
    | ReqSessionExists origin => incrementStats st origin
    end.
Proof.
  destruct req as [body|body|body|o|body o|body o|body o|body o|o|o];
    lazy beta iota delta [storageAfter].
  - done.
  - rewrite login_run. destruct (linkCheck st body); [|done]. simpl.
    by case_bool_decide.
  - by rewrite getLoginOptions_run.
  - rewrite logout_run. destruct (currentSession (originDataOf st o)); [|done].
    by destruct (userAgrees env).
  - rewrite sign_run, sessionOrImplicit_run.
    destruct (currentSession (originDataOf st o)); [done|].
    by destruct (isMasquerade o).
  - rewrite getPublicKey_run, sessionOrImplicit_run.
    destruct (currentSession (originDataOf st o)); [done|].
    by destruct (isMasquerade o).
  - rewrite link_run. case_bool_decide; [done|].
    destruct (linkExists st o (link_withOrigin body)); [done|].
    by destruct (userAgrees env).
  - rewrite unlink_run. destruct (linkExists st o (unlink_withOrigin body)); [|done].
    by destruct (userAgrees env).
  - done.
  - done.
Qed.

Lemma storageAfter_transition (req : Request) (env : Env) (st : StateManager) :
  transition st (storageAfter req env st).
Proof.
  rewrite storageAfter_cases.
  destruct req as [body|body|body|o|body o|body o|body o|body o|o|o].
  - constructor.
  - destruct (linkCheck st body) eqn:Hcheck; simpl; [|constructor].
    case_bool_decide; simpl; [constructor|]. by constructor.
  - constructor.
  - destruct (currentSession (originDataOf st o)); [|constructor].
    destruct (userAgrees env); constructor.
  - destruct (currentSession (originDataOf st o)); [constructor|].
    destruct (isMasquerade o); constructor.
  - destruct (currentSession (originDataOf st o)); [constructor|].
    destruct (isMasquerade o); constructor.
  - case_bool_decide; simpl; [constructor|].
    destruct (linkExists st o (link_withOrigin body)) eqn:Hex; simpl; [constructor|].
    destruct (userAgrees env); [by constructor | constructor].
  - destruct (linkExists st o (unlink_withOrigin body)); simpl; [|constructor].
    destruct (userAgrees env); constructor.
  - constructor.
  - constructor.
Qed.

(** ** Effects of a request *)

(** The three ways a request can end: thrown before any effect; answered
    without a write, after at most a dialog; answered after one write, which
    is the last effect and counts one usage. *)
Lemma handle_outcome (req : Request) (env : Env) (st : StateManager) :
  (∃ e, run (handle req) env st = (Throw e, mkWorld st []))
  ∨ (∃ a tr, (tr = [] ∨ tr = [EvDialog]) ∧ run (handle req) env st = (Ok a, mkWorld st tr))
  ∨ (∃ a tr st', (tr = [EvPersist] ∨ tr = [EvDialog; EvPersist])
       ∧ run (handle req) env st = (Ok a, mkWorld st' tr)
       ∧ stats st' = bumpStats (statsOrigin req) (stats st)).
Proof.
  destruct req as [body|body|body|o|body o|body o|body o|body o|o|o];
    lazy beta iota delta [handle statsOrigin]; rewrite run_answer.
  - right; right. by eexists _, _, _; split_and!; [left | reflexivity |].
  - rewrite login_run. destruct (negb (linkCheck st body)); [left; by eexists|].
    case_bool_decide; [left; by eexists|].
    right; right. by eexists _, _, _; split_and!; [left | reflexivity |].
  - rewrite getLoginOptions_run.
    right; right. by eexists _, _, _; split_and!; [left | reflexivity |].
  - rewrite logout_run. destruct (currentSession (originDataOf st o)).
    + destruct (userAgrees env).
      * right; right. by eexists _, _, _; split_and!; [right | reflexivity |].
      * right; left. by eexists _, _; split; [right |].
    + right; left. by eexists _, _; split; [left |].
  - rewrite sign_run, sessionOrImplicit_run.
    destruct (currentSession (originDataOf st o)).
    + right; right. by eexists _, _, _; split_and!; [left | reflexivity |].
    + destruct (isMasquerade o); [|left; by eexists].
      right; right. by eexists _, _, _; split_and!; [left | reflexivity |].
  - rewrite getPublicKey_run, sessionOrImplicit_run.
    destruct (currentSession (originDataOf st o)).
    + right; right. by eexists _, _, _; split_and!; [left | reflexivity |].
    + destruct (isMasquerade o); [|left; by eexists].
      right; right. by eexists _, _, _; split_and!; [left | reflexivity |].
  - rewrite link_run. case_bool_decide; [left; by eexists|].
    destruct (linkExists st o (link_withOrigin body)).
    + right; left. by eexists _, _; split; [left |].
    + destruct (userAgrees env).
      * right; right. eexists _, _, _; split_and!; [by right | reflexivity |].
        simpl. by rewrite stats_link.
      * right; left. by eexists _, _; split; [right |].
  - rewrite unlink_run. destruct (linkExists st o (unlink_withOrigin body)); simpl.
    + destruct (userAgrees env).
      * right; right. eexists _, _, _; split_and!; [by right | reflexivity |].
        simpl. by rewrite stats_deauthorize.
      * right; left. by eexists _, _; split; [right |].
    + right; left. by eexists _, _; split; [left |].
  - right; right. by eexists _, _, _; split_and!; [left | reflexivity |].
  - right; right. by eexists _, _, _; split_and!; [left | reflexivity |].
Qed.


(** X2: a request shows at most one dialog and persists at most once, as
    its last effect; without a persist the storage is unchanged, and with
    one the request has answered and counted exactly one usage, for its own
    origin. *)
Theorem request_effects (req : Request) (env : Env) (st : StateManager) :
  let r := run (handle req) env st in
  trace (snd r) ∈ [[]; [EvDialog]; [EvPersist]; [EvDialog; EvPersist]]
  ∧ (EvPersist ∉ trace (snd r) -> storage (snd r) = st)
  ∧ (EvPersist ∈ trace (snd r) ->
       (∃ a, fst r = Ok a)
       ∧ stats (storage (snd r)) = bumpStats (statsOrigin req) (stats st)).
Proof.
  intros r. subst r.
  destruct (handle_outcome req env st)
    as [[e' H]|[(a & tr & Htr & H)|(a & tr & st' & Htr & H & Hstats)]];
    rewrite H; simpl.
  - split_and!; [apply list_elem_of_here | done | by intros ?%elem_of_nil].
  - destruct Htr as [-> | ->]; split_and!; try done.
    + apply list_elem_of_here.
    + by intros ?%elem_of_nil.
    + apply list_elem_of_further, list_elem_of_here.
    + by intros [=]%list_elem_of_singleton.
  - destruct Htr as [-> | ->]; split_and!; eauto.
    + do 2 apply list_elem_of_further. apply list_elem_of_here.
    + intros Hno. exfalso. apply Hno, list_elem_of_here.
    + do 3 apply list_elem_of_further. apply list_elem_of_here.
    + intros Hno. exfalso. apply Hno, list_elem_of_further, list_elem_of_here.
Qed.

(** ** What a request writes *)

(** X3: a request leaves alone the entry of every origin it does not name:
    add, login and logout write the entry of their origin only, link and
    unlink the entries of the two ends, and the queries (login options,
    sign, public key, links, session) no entry at all. *)
Theorem request_writes_only_its_origins
    (req : Request) (env : Env) (st : StateManager) (o : TOrigin) :
  o ∉ writtenOrigins req ->
  originDataOf (storageAfter req env st) o = originDataOf st o.
Proof.
  intros Ho. rewrite storageAfter_cases.
  destruct req as [body|body|body|x|body x|body x|body x|body x|x|x]; simpl in Ho.
  - rewrite originDataOf_incrementStats, originDataOf_addIdentity.
    rewrite decide_False; [done|]. intros ->. apply Ho, list_elem_of_here.
  - destruct (_ && _); [|done]. rewrite originDataOf_loggedIn.
    rewrite decide_False; [done|]. intros ->. apply Ho, list_elem_of_here.
  - done.
  - destruct (currentSession (originDataOf st x)); [|done].
    destruct (userAgrees env); [|done]. rewrite originDataOf_loggedOut.
    rewrite decide_False; [done|]. intros ->. apply Ho, list_elem_of_here.
  - destruct (currentSession (originDataOf st x)); [done|]. by destruct (isMasquerade x).
  - destruct (currentSession (originDataOf st x)); [done|]. by destruct (isMasquerade x).
  - destruct (_ && _); [|done]. rewrite originDataOf_incrementStats.
    apply link_other.
    + intros ->. apply Ho, list_elem_of_here.
    + intros ->. apply Ho, list_elem_of_further, list_elem_of_here.
  - destruct (_ && _); [|done].
    assert (o ≠ x) by (intros ->; apply Ho, list_elem_of_here).
    assert (o ≠ unlink_withOrigin body)
      by (intros ->; apply Ho, list_elem_of_further, list_elem_of_here).
    rewrite originDataOf_incrementStats, originDataOf_deauthorize.
    rewrite decide_False by done. by apply unlink_other.
  - done.
  - done.
Qed.

(** X4: the number of identities of an origin changes only by an add
    request for that origin, which raises it by exactly one; no request
    lowers it. *)
Theorem identitiesTotal_grows_only_by_add
    (req : Request) (env : Env) (st : StateManager) (o : TOrigin) :
  identitiesTotal (originDataOf (storageAfter req env st) o)
  = identitiesTotal (originDataOf st o)
    + match req with
      | ReqAdd body => if decide (o = add_toOrigin body) then 1 else 0
      | _ => 0
      end.
Proof.
  rewrite storageAfter_cases.
  destruct req as [body|body|body|x|body x|body x|body x|body x|x|x].
  - rewrite originDataOf_incrementStats, originDataOf_addIdentity.
    case_decide; subst; simpl; lia.
  - rewrite Nat.add_0_r. destruct (_ && _); [|done].
    rewrite originDataOf_loggedIn. by case_decide.
  - by rewrite Nat.add_0_r.
  - rewrite Nat.add_0_r. destruct (currentSession (originDataOf st x)); [|done].
    destruct (userAgrees env); [|done]. rewrite originDataOf_loggedOut. by case_decide.
  - rewrite Nat.add_0_r.
    destruct (currentSession (originDataOf st x)); [done|]. by destruct (isMasquerade x).
  - rewrite Nat.add_0_r.
    destruct (currentSession (originDataOf st x)); [done|]. by destruct (isMasquerade x).
  - rewrite Nat.add_0_r. case_bool_decide as Hne; simpl; [done|].
    destruct (linkExists st x (link_withOrigin body)) eqn:Hex; simpl; [done|].
    destruct (userAgrees env); [|done]. rewrite originDataOf_incrementStats.
    by destruct (link_new st x (link_withOrigin body) Hne Hex o) as (_ & _ & -> & _).
  - rewrite Nat.add_0_r. destruct (_ && _); [|done].
    rewrite originDataOf_incrementStats, originDataOf_deauthorize.
    destruct (unlink_entries st x (unlink_withOrigin body) o) as (_ & _ & <- & _).
    case_decide; [|done].
    destruct (currentSession _); [|done]. by case_bool_decide.
  - by rewrite Nat.add_0_r.
  - by rewrite Nat.add_0_r.
Qed.

(** ** Sessions of reachable states *)

Lemma transition_sessionsHaveIdentity (st st' : StateManager) :
  transition st st' -> sessionsHaveIdentity st -> sessionsHaveIdentity st'.
Proof.
  intros Hstep Hinv o.
  destruct Hstep as [st|st x|st x|st body now Hcheck Htotal|st x|st from to Hne Hex|st from to].
  - apply Hinv.
  - apply Hinv.
  - rewrite originDataOf_incrementStats, originDataOf_addIdentity.
    case_decide; [done | apply Hinv].
  - rewrite originDataOf_loggedIn. case_decide; [by subst | apply Hinv].
  - rewrite originDataOf_loggedOut. case_decide; [done | apply Hinv].
  - rewrite originDataOf_incrementStats.
    destruct (link_new st from to Hne Hex o) as (_ & _ & -> & ->). apply Hinv.
  - rewrite originDataOf_incrementStats, originDataOf_deauthorize.
    destruct (unlink_entries st from to o) as (_ & _ & Htotal & Hsession).
    specialize (Hinv o). rewrite <- Htotal, <- Hsession in Hinv.
    case_decide; [|done]. revert Hinv.
    destruct (currentSession (originDataOf (unlink st from to) o)) as [s|] eqn:Hs.
    + case_bool_decide; [by simpl | intros Hinv _; by apply Hinv].
    + intros _ Hsome. by rewrite Hs in Hsome.
Qed.

Lemma transition_sessionsLinked (st st' : StateManager) :
  transition st st' -> sessionsLinked st -> sessionsLinked st'.
Proof.
  intros Hstep Hinv o s.
  destruct Hstep as [st|st x|st x|st body now Hcheck Htotal|st x|st from to Hne Hex|st from to].
  - apply Hinv.
  - apply Hinv.
  - rewrite (linkExists_sameLinks st) by
      (eapply sameLinks_trans; [apply sameLinks_addIdentity | apply sameLinks_incrementStats]).
    rewrite originDataOf_incrementStats, originDataOf_addIdentity.
    case_decide; [subst|]; apply Hinv.
  - rewrite (linkExists_sameLinks st) by apply sameLinks_loggedIn.
    rewrite originDataOf_loggedIn. case_decide as Ho; [|apply Hinv].
    subst o. simpl. intros [= <-]. simpl.
    unfold linkCheck in Hcheck.
    destruct (withLinkedOrigin body) as [linked|]; simpl; [|by left].
    apply orb_true_iff in Hcheck as [Heq%bool_decide_eq_true | Hex]; [by left | by right].
  - rewrite (linkExists_sameLinks st) by apply sameLinks_loggedOut.
    rewrite originDataOf_loggedOut. case_decide; [done | apply Hinv].
  - rewrite originDataOf_incrementStats.
    destruct (link_new st from to Hne Hex o) as (_ & _ & _ & ->).
    intros Hs. destruct (Hinv o s Hs) as [Hself | Hlinked]; [by left | right].
    apply linkExists_true. apply linkExists_true in Hlinked.
    rewrite originDataOf_incrementStats.
    destruct (link_new st from to Hne Hex (deriviationOrigin s)) as (-> & _).
    case_decide; [apply elem_of_app; by left | done].
  - rewrite originDataOf_incrementStats, originDataOf_deauthorize.
    destruct (unlink_entries st from to o) as (_ & _ & _ & Hsession).
    assert (Hlinks : ∀ y, (y, o) ≠ (from, to) ->
              linkExists st y o = true ->
              linkExists (incrementStats (deauthorize (unlink st from to) from to) from) y o
              = true).
    { intros y Hedge Hlinked. apply linkExists_true. apply linkExists_true in Hlinked.
      rewrite originDataOf_incrementStats.
      destruct (sameLinks_deauthorize (unlink st from to) from to y) as [-> _].
      destruct (unlink_entries st from to y) as (-> & _).
      case_decide; [|done]. apply elem_of_without. split; [|done].
      intros ->. by subst. }
    case_decide as Ho.
    + subst o. rewrite Hsession.
      destruct (currentSession (originDataOf st to)) as [s'|] eqn:Hs';
        [|by rewrite Hsession].
      case_bool_decide as Hd.
      * by simpl.
      * rewrite Hsession. intros [= <-].
        destruct (Hinv to s' Hs') as [Hself | Hlinked]; [by left | right].
        apply Hlinks; [|done]. intros [= Hy]. done.
    + rewrite Hsession. intros Hs.
      destruct (Hinv o s Hs) as [Hself | Hlinked]; [by left | right].
      apply Hlinks; [|done]. intros [= _ Hy]. done.
Qed.

Lemma sessions_emptyState (s0 : Stats) :
  sessionsHaveIdentity (emptyState s0) ∧ sessionsLinked (emptyState s0).
Proof.
  split; intros o; rewrite originDataOf_emptyState; simpl; [done | by intros s [=]].
Qed.

Lemma reachable_sessions (s0 : Stats) (st : StateManager) :
  reachable s0 st -> sessionsHaveIdentity st ∧ sessionsLinked st.
Proof.
  induction 1 as [|st req env _ [IH1 IH2]].
  - apply sessions_emptyState.
  - split.
    + eapply transition_sessionsHaveIdentity; [apply storageAfter_transition | done].
    + eapply transition_sessionsLinked; [apply storageAfter_transition | done].
Qed.

(** X5: in every reachable state, an origin with an open session has at
    least one identity of its own. *)
Theorem reachable_session_has_identity (s0 : Stats) (st : StateManager) (o : TOrigin) :
  reachable s0 st ->
  currentSession (originDataOf st o) ≠ None ->
  1 ≤ identitiesTotal (originDataOf st o).
Proof.
  intros Hreach Hs. apply reachable_sessions in Hreach as [Hinv _].
  specialize (Hinv o Hs). lia.
Qed.

(** X6: in every reachable state, a session that borrows the identities of
    another origin is covered by a link from that origin: no session
    outlives the link it was opened through. *)
Theorem reachable_session_has_link
    (s0 : Stats) (st : StateManager) (o : TOrigin) (s : ISession) :
  reachable s0 st ->
  currentSession (originDataOf st o) = Some s ->
  deriviationOrigin s ≠ o ->
  linkExists st (deriviationOrigin s) o = true.
Proof.
  intros Hreach Hs Hne. apply reachable_sessions in Hreach as [_ Hinv].
  by destruct (Hinv o s Hs).
Qed.

(** ** Labels and pseudonyms *)

Lemma chars_app (s t : string) : chars (s +:+ t) = chars s ++ chars t.
Proof. induction s as [|c s IH]; simpl; [done | by rewrite IH]. Qed.

Lemma string_app_assoc (s t u : string) : (s +:+ t) +:+ u = s +:+ t +:+ u.
Proof.
  induction s as [|c s IH]; [done|].
  change (String c ((s +:+ t) +:+ u) = String c (s +:+ t +:+ u)). by f_equal.
Qed.

(** Two strings cut at the first occurrence of a character. *)
Lemma string_split_first (c : ascii) (a1 a2 b1 b2 : string) :
  c ∉ chars a1 -> c ∉ chars a2 ->
  a1 +:+ String c b1 = a2 +:+ String c b2 -> a1 = a2 ∧ b1 = b2.
Proof.
  revert a2. induction a1 as [|x a1 IH]; intros [|y a2] H1 H2 Heq; simpl in *.
  - by injection Heq as ->.
  - injection Heq as <- _. exfalso. apply H2, list_elem_of_here.
  - injection Heq as -> _. exfalso. apply H1, list_elem_of_here.
  - injection Heq as -> Heq.
    apply not_elem_of_cons in H1 as [_ H1]. apply not_elem_of_cons in H2 as [_ H2].
    by destruct (IH a2 H1 H2 Heq) as [-> ->].
Qed.

(** Two strings cut at the last occurrence of a character. *)
Lemma string_split_last (c : ascii) (a1 a2 b1 b2 : string) :
  c ∉ chars b1 -> c ∉ chars b2 ->
  a1 +:+ String c b1 = a2 +:+ String c b2 -> a1 = a2 ∧ b1 = b2.
Proof.
  intros H1 H2.
  revert a2. induction a1 as [|x a1 IH]; intros [|y a2] Heq; simpl in *.
  - by injection Heq as ->.
  - injection Heq as <- ->. exfalso. apply H1.
    rewrite chars_app. apply elem_of_app. right. apply list_elem_of_here.
  - injection Heq as -> <-. exfalso. apply H2.
    rewrite chars_app. apply elem_of_app. right. apply list_elem_of_here.
  - injection Heq as -> Heq. by destruct (IH a2 Heq) as [-> ->].
Qed.

Lemma pretty_N_char_not_LF (x : N) : pretty_N_char x ≠ "010"%char.
Proof. unfold pretty_N_char. by repeat case_match. Qed.

Lemma pretty_N_go_no_LF (x : N) (s : string) :
  "010"%char ∉ chars s -> "010"%char ∉ chars (pretty_N_go x s).
Proof.
  revert s. induction (N.lt_wf_0 x) as [x _ IH]; intros s Hs.
  destruct (decide (x = 0%N)) as [->|Hx]; [by rewrite pretty_N_go_0|].
  rewrite pretty_N_go_step by lia. apply IH.
  - apply N.div_lt; lia.
  - simpl. apply not_elem_of_cons. split; [|done].
    intros Heq. by apply (pretty_N_char_not_LF (x `mod` 10)).
Qed.

Lemma pretty_nat_no_LF (i : nat) : "010"%char ∉ chars (pretty i).
Proof.
  unfold pretty, pretty_nat, pretty, pretty_N.
  case_decide.
  - simpl. by intros [=]%list_elem_of_singleton.
  - apply pretty_N_go_no_LF. simpl. apply not_elem_of_nil.
Qed.

(** X7: for one purpose label, the entropy salt determines the origin and
    the identity index together, whatever characters the origin holds: two
    different (origin, index) pairs never ask the entropy source for the same
    salt. *)
Theorem entropySalt_inj_origin_identityId
    (o o' : TOrigin) (i i' : TIdentityId) (p : string) :
  entropySalt o i p = entropySalt o' i' p -> o = o' ∧ i = i'.
Proof.
  unfold entropySalt. intros Heq.
  do 3 apply String.app_inj in Heq.
  change (LF +:+ pretty i +:+ LF +:+ p) with (String "010" (pretty i +:+ LF +:+ p)) in Heq.
  change (LF +:+ pretty i' +:+ LF +:+ p) with (String "010" (pretty i' +:+ LF +:+ p)) in Heq.
  assert (Hcut : (o +:+ String "010" (pretty i)) +:+ (LF +:+ p)
                 = (o' +:+ String "010" (pretty i')) +:+ (LF +:+ p)).
  { rewrite !string_app_assoc. exact Heq. }
  apply string_app_inv_tail in Hcut.
  apply string_split_last in Hcut as [-> Hi]; [|apply pretty_nat_no_LF..].
  split; [done|]. by apply (inj pretty) in Hi.
Qed.

Lemma ADJECTIVES_NoDup : NoDup ADJECTIVES.
Proof. apply (bool_decide_unpack _). vm_compute. exact I. Qed.

Lemma NOUNS_NoDup : NoDup NOUNS.
Proof. apply (bool_decide_unpack _). vm_compute. exact I. Qed.

Lemma ADJECTIVES_no_space : Forall (λ a, " "%char ∉ chars a) ADJECTIVES.
Proof. apply (bool_decide_unpack _). vm_compute. exact I. Qed.

(** X8: a pseudonym is an adjective and a noun of the two word lists, never
    [undefined], and two pairs of seeds give the same pseudonym exactly when
    they agree modulo 256: the 65536 pairs of bytes name 65536 different
    pseudonyms. *)
Theorem generateRandomPseudonym_inj (seed1 seed2 seed1' seed2' : nat) :
  (∃ adjective noun,
     adjective ∈ ADJECTIVES ∧ noun ∈ NOUNS
     ∧ generateRandomPseudonym seed1 seed2 = adjective +:+ " " +:+ noun)
  ∧ (generateRandomPseudonym seed1 seed2 = generateRandomPseudonym seed1' seed2'
     ↔ seed1 mod 256 = seed1' mod 256 ∧ seed2 mod 256 = seed2' mod 256).
Proof.
  assert (Hlen : length ADJECTIVES = 256 ∧ length NOUNS = 256) by (by vm_compute).
  destruct Hlen as [HlenA HlenN].
  assert (Hword : ∀ (l : list string) seed, length l = 256 ->
            ∃ w, l !! (seed mod 256) = Some w).
  { intros l seed Hl. apply lookup_lt_is_Some. rewrite Hl.
    apply Nat.mod_upper_bound. lia. }
  unfold generateRandomPseudonym. rewrite HlenA, HlenN.
  destruct (Hword ADJECTIVES seed1 HlenA) as [a Ha], (Hword NOUNS seed2 HlenN) as [n Hn].
  destruct (Hword ADJECTIVES seed1' HlenA) as [a' Ha'], (Hword NOUNS seed2' HlenN) as [n' Hn'].
  rewrite Ha, Hn, Ha', Hn'. cbn [from_option id]. split.
  - exists a, n. split_and!; [| |done]; by eapply list_elem_of_lookup_2.
  - split.
    + intros Heq.
      pose proof ADJECTIVES_no_space as Hsp. rewrite Forall_forall in Hsp.
      apply (string_split_first " "%char) in Heq as [-> ->].
      * split.
        -- apply (NoDup_lookup ADJECTIVES _ _ a' ADJECTIVES_NoDup Ha Ha').
        -- apply (NoDup_lookup NOUNS _ _ n' NOUNS_NoDup Hn Hn').
      * apply Hsp. by eapply list_elem_of_lookup_2.
      * apply Hsp. by eapply list_elem_of_lookup_2.
    + intros [H1 H2]. rewrite H1, H2 in *. by simplify_eq.
Qed.

(** X9: a custom salt with no bytes is no custom salt: signing and the
    public key with the empty salt use the key pair of the unsalted
    derivation. *)
Theorem empty_salt_is_no_salt
    (origin : TOrigin) (body : IIdentitySignRequest) (env : Env) (st : StateManager)
    (o : TOrigin) (i : TIdentityId) :
  getSignIdentity o i (Some []) = getSignIdentity o i None
  ∧ (sign_salt body = Some [] ->
     run (handleIdentitySign body origin) env st
     = run (handleIdentitySign {| challenge := challenge body; sign_salt := None |} origin)
         env st)
  ∧ run (handleIdentityGetPublicKey {| pk_salt := Some [] |} origin) env st
    = run (handleIdentityGetPublicKey {| pk_salt := None |} origin) env st.
Proof.
  assert (Hkey : ∀ o i, getSignIdentity o i (Some []) = getSignIdentity o i None).
  { intros o' i'. unfold getSignIdentity, getEntropy. by rewrite app_nil_r. }
  split_and!; [apply Hkey | |].
  - intros Hsalt. rewrite !sign_run. simpl. rewrite Hsalt.
    destruct (sessionOrImplicit st origin env _) as [[session|e] w]; [|done].
    by rewrite Hkey.
  - rewrite !getPublicKey_run. simpl.
    destruct (sessionOrImplicit st origin env _) as [[session|e] w]; [|done].
    by rewrite Hkey.
Qed.

(** ** Sessions at work *)

Lemma sessionExists_run (origin : TOrigin) (env : Env) (st : StateManager) :
  run (handleIdentitySessionExists origin) env st
  = (Ok (bool_decide (currentSession (originDataOf st origin) ≠ None)),
     mkWorld (incrementStats st origin) [EvPersist]).
Proof.
  unfold handleIdentitySessionExists. handler_simpl. by rewrite deref_getOriginData.
Qed.

Lemma getLinks_run (origin : TOrigin) (env : Env) (st : StateManager) :
  run (handleIdentityGetLinks origin) env st
  = (Ok (linksTo (originDataOf st origin)), mkWorld (incrementStats st origin) [EvPersist]).
Proof. rewrite <- (deref_getOriginData st origin). reflexivity. Qed.

(** X10: signing and the public key answer for the same key pair: on one
    state and with one salt, either both throw the same error and leave no
    trace, or there is one identity whose signature of the challenge and
    whose raw public key are the two answers. *)
Theorem sign_and_publicKey_agree
    (signBody : IIdentitySignRequest) (pkBody : IIdentityGetPublicKeyRequest)
    (origin : TOrigin) (env : Env) (st : StateManager) :
  sign_salt signBody = pk_salt pkBody ->
  (∃ e, run (handleIdentitySign signBody origin) env st = (Throw e, mkWorld st [])
        ∧ run (handleIdentityGetPublicKey pkBody origin) env st = (Throw e, mkWorld st []))
  ∨ (∃ identity,
       run (handleIdentitySign signBody origin) env st
       = (Ok (signWith identity (challenge signBody)),
          mkWorld (incrementStats st origin) [EvPersist])
       ∧ run (handleIdentityGetPublicKey pkBody origin) env st
         = (Ok (publicKeyRaw identity), mkWorld (incrementStats st origin) [EvPersist])).
Proof.
  intros Hsalt. rewrite sign_run, getPublicKey_run, Hsalt.
  destruct (sessionOrImplicit st origin env _) as [[session|e] w].
  - right. by eexists.
  - left. by eexists.
Qed.

(** X11: after a login that answered true, the login origin has a session,
    and signing and the public key use the key pair derived for the
    requested derivation origin (the login origin itself when none is given)
    and the requested index, whatever that index is. *)
Theorem login_then_sign
    (body : IIdentityLoginRequest) (signBody : IIdentitySignRequest)
    (pkBody : IIdentityGetPublicKeyRequest) (env env' : Env) (st : StateManager) :
  fst (run (protected_handleIdentityLogin body) env st) = Ok true ->
  let st1 := storage (snd (run (protected_handleIdentityLogin body) env st)) in
  let identity salt :=
    getSignIdentity (default (toOrigin body) (withLinkedOrigin body)) (withIdentityId body) salt in
  fst (run (handleIdentitySessionExists (toOrigin body)) env' st1) = Ok true
  ∧ fst (run (handleIdentitySign signBody (toOrigin body)) env' st1)
    = Ok (signWith (identity (sign_salt signBody)) (challenge signBody))
  ∧ fst (run (handleIdentityGetPublicKey pkBody (toOrigin body)) env' st1)
    = Ok (publicKeyRaw (identity (pk_salt pkBody))).
Proof.
  intros Hok st1 identity.
  assert (Hs : currentSession (originDataOf st1 (toOrigin body))
               = Some (loginSession body (nowMs env))).
  { subst st1. revert Hok. rewrite login_run.
    destruct (negb (linkCheck st body)); [discriminate|].
    case_bool_decide; [discriminate|]. intros _.
    change (currentSession (originDataOf (loggedIn st body (nowMs env)) (toOrigin body))
            = Some (loginSession body (nowMs env))).
    rewrite originDataOf_loggedIn. by rewrite decide_True. }
  rewrite sessionExists_run, sign_run, getPublicKey_run, !sessionOrImplicit_run, Hs.
  split_and!; [|done..].
  change (Ok (bool_decide (Some (loginSession body (nowMs env)) ≠ None)) = Ok true).
  by rewrite bool_decide_eq_true_2.
Qed.

(** X12: a logout of an origin without a session answers true without a
    dialog and without a write; after a logout the user confirms, the origin
    has no session, and signing for it throws Unauthorized unless it is the
    Masquerade site. *)
Theorem logout_closes_session
    (origin : TOrigin) (signBody : IIdentitySignRequest) (env env' : Env) (st : StateManager) :
  (currentSession (originDataOf st origin) = None ->
     run (handleIdentityLogoutRequest origin) env st = (Ok true, mkWorld st []))
  ∧ (userAgrees env = true ->
     let st1 := storage (snd (run (handleIdentityLogoutRequest origin) env st)) in
     fst (run (handleIdentityLogoutRequest origin) env st) = Ok true
     ∧ fst (run (handleIdentitySessionExists origin) env' st1) = Ok false
     ∧ (origin ≠ MSQ_SNAP_SITE_ORIGIN ->
        run (handleIdentitySign signBody origin) env' st1
        = (Throw (Err UNAUTHORIZED "Log in first"), mkWorld st1 []))).
Proof.
  split.
  - intros Hnone. by rewrite logout_run, Hnone.
  - intros Hagree. rewrite logout_run, Hagree.
    assert (Hclosed : ∀ st1,
              currentSession (originDataOf st1 origin) = None ->
              fst (run (handleIdentitySessionExists origin) env' st1) = Ok false
              ∧ (origin ≠ MSQ_SNAP_SITE_ORIGIN ->
                 run (handleIdentitySign signBody origin) env' st1
                 = (Throw (Err UNAUTHORIZED "Log in first"), mkWorld st1 []))).
    { intros st1 Hnone. rewrite sessionExists_run, sign_run, sessionOrImplicit_run, Hnone.
      split; [done|].
      intros Hne. unfold isMasquerade. by rewrite bool_decide_eq_false_2. }
    destruct (currentSession (originDataOf st origin)) as [s|] eqn:Hs; simpl.
    + split; [done|]. apply Hclosed. rewrite originDataOf_loggedOut. by rewrite decide_True.
    + split; [done|]. by apply Hclosed.
Qed.

(** ** Links at work *)

Lemma without_snoc (o : TOrigin) (l : list TOrigin) :
  o ∉ l -> without o (l ++ [o]) = l.
Proof.
  intros Ho. unfold without. rewrite filter_app.
  rewrite filter_cons_False by (intros H; by apply H).
  rewrite filter_nil, app_nil_r.
  induction l as [|x l IH]; [done|].
  apply not_elem_of_cons in Ho as [Hx Hl].
  rewrite filter_cons_True by done. f_equal. by apply IH.
Qed.

Lemma originData_ext (d d' : IOriginData) :
  identitiesTotal d = identitiesTotal d' -> linksFrom d = linksFrom d' ->
  linksTo d = linksTo d' -> currentSession d = currentSession d' -> d = d'.
Proof. destruct d, d'. simpl. by intros -> -> -> ->. Qed.

(** X13: links are directed and can be undone.  In a reachable state
    without an edge from A to B, a link request of A for B that the user
    confirms creates that edge and no edge from B to A; an unlink request the
    user confirms right after leaves the data of every origin (identities,
    both link lists, session) as it was before the link. *)
Theorem link_then_unlink_restores
    (s0 : Stats) (st : StateManager) (A B : TOrigin) (now now' : TTimestamp) :
  reachable s0 st -> A ≠ B -> linkExists st A B = false ->
  let st1 := storageAfter (ReqLink {| link_withOrigin := B |} A) (mkEnv true now) st in
  let st2 := storageAfter (ReqUnlink {| unlink_withOrigin := B |} A) (mkEnv true now') st1 in
  linkExists st1 A B = true
  ∧ linkExists st1 B A = linkExists st B A
  ∧ ∀ o, originDataOf st2 o = originDataOf st o.
Proof.
  intros Hreach Hne Hex st1 st2.
  pose proof (reachable_wellLinked _ _ Hreach) as (Hcons & _).
  pose proof (reachable_sessions _ _ Hreach) as (_ & Hlinked).
  pose proof (link_new st A B Hne Hex) as Hnew.
  assert (Hst1 : st1 = incrementStats (link st A B) A).
  { subst st1. rewrite storageAfter_cases. simpl.
    by rewrite Hex, bool_decide_eq_false_2. }
  assert (Hex1 : linkExists st1 A B = true).
  { rewrite Hst1. apply linkExists_true. rewrite originDataOf_incrementStats.
    destruct (Hnew A) as (-> & _). rewrite decide_True by done.
    apply elem_of_app. right. apply list_elem_of_here. }
  assert (Hst2 : st2 = incrementStats (deauthorize (unlink st1 A B) A B) A).
  { subst st2. rewrite storageAfter_cases. simpl. by rewrite Hex1. }
  split_and!; [done | |].
  - rewrite Hst1. unfold linkExists. rewrite originDataOf_incrementStats.
    destruct (Hnew B) as (-> & _). by rewrite decide_False.
  - intros o. rewrite Hst2, originDataOf_incrementStats, originDataOf_deauthorize.
    destruct (unlink_entries st1 A B o) as (Hto & Hfrom & Htotal & Hsession).
    assert (Hnew1 : originDataOf st1 o = originDataOf (link st A B) o) by (by rewrite Hst1).
    rewrite Hnew1 in Hto, Hfrom, Htotal, Hsession.
    destruct (Hnew o) as (Hto1 & Hfrom1 & Htotal1 & Hsession1).
    assert (Hentry : originDataOf (unlink st1 A B) o = originDataOf st o).
    { apply originData_ext.
      - by rewrite Htotal, Htotal1.
      - rewrite Hfrom, Hfrom1. destruct (decide (o = B)) as [->|Ho]; [|done].
        apply without_snoc. intros Hin. apply Hcons in Hin.
        apply linkExists_false in Hex. done.
      - rewrite Hto, Hto1. destruct (decide (o = A)) as [->|Ho]; [|done].
        apply without_snoc. by apply linkExists_false.
      - by rewrite Hsession, Hsession1. }
    rewrite Hentry. destruct (decide (o = B)) as [->|Ho]; [|done].
    destruct (currentSession (originDataOf st B)) as [s|] eqn:Hs; [|done].
    case_bool_decide as Hd; [|done]. exfalso.
    destruct (Hlinked B s Hs) as [Hself | Hl]; [congruence|].
    rewrite Hd in Hl. congruence.
Qed.

(** X14: an unlink request of A for B that the user confirms takes the
    borrowed login away: whatever the state before and whatever the index, a
    login to B with derivation origin A then throws Unauthorized and leaves
    the storage alone. *)
Theorem unlink_revokes_login
    (st : StateManager) (A B : TOrigin) (now : TTimestamp) (env : Env) (index : TIdentityId) :
  A ≠ B ->
  let st1 := storageAfter (ReqUnlink {| unlink_withOrigin := B |} A) (mkEnv true now) st in
  run (protected_handleIdentityLogin
         {| toOrigin := B; withIdentityId := index; withLinkedOrigin := Some A |}) env st1
  = (Throw (Err UNAUTHORIZED "Unable to login without a link"), mkWorld st1 []).
Proof.
  intros Hne st1.
  assert (Hex1 : linkExists st1 A B = false).
  { subst st1. rewrite storageAfter_cases. simpl.
    destruct (linkExists st A B) eqn:Hex; simpl; [|done].
    apply linkExists_false. rewrite originDataOf_incrementStats.
    destruct (sameLinks_deauthorize (unlink st A B) A B A) as [-> _].
    destruct (unlink_entries st A B A) as (-> & _).
    rewrite decide_True by done. rewrite elem_of_without. by intros [? _]. }
  rewrite login_run. unfold linkCheck. simpl.
  by rewrite Hex1, bool_decide_eq_false_2.
Qed.

(** X15: every login option that is listed can be used: in a reachable
    state, a login to the origin with the source of any listed group as
    derivation origin never throws Unauthorized; it succeeds when the origin
    has an identity of its own and throws the unreachable error when it has
    none, whatever identities the source has. *)
Theorem listed_options_pass_link_check
    (s0 : Stats) (st : StateManager) (origin source : TOrigin) (keys : list string)
    (options : list (TOrigin * list string)) (index : TIdentityId) (env env' : Env) :
  reachable s0 st ->
  let listing := run (protected_handleIdentityGetLoginOptions {| forOrigin := origin |}) env st in
  fst listing = Ok options ->
  (source, keys) ∈ options ->
  fst (run (protected_handleIdentityLogin
              {| toOrigin := origin; withIdentityId := index;
                 withLinkedOrigin := Some source |})
         env' (storage (snd listing)))
  = if bool_decide (identitiesTotal (originDataOf st origin) = 0)
    then Throw (Unreacheable "login - no origin data found")
    else Ok true.
Proof.
  intros Hreach listing. subst listing. rewrite getLoginOptions_run. simpl.
  intros [= <-] Hin.
  pose proof (reachable_wellLinked _ _ Hreach) as (Hcons & _).
  assert (Hcheck : source = origin ∨ linkExists st source origin = true).
  { apply elem_of_cons in Hin as [[= -> _] | Hin]; [by left|].
    apply list_elem_of_fmap in Hin as (y & [= -> _] & Hy).
    right. apply linkExists_true. by apply Hcons. }
  rewrite login_run. unfold linkCheck. simpl.
  rewrite (linkExists_sameLinks st) by apply sameLinks_incrementStats.
  rewrite originDataOf_incrementStats.
  assert (Hpass : bool_decide (source = origin) || linkExists st source origin = true).
  { destruct Hcheck as [-> | ->]; [by rewrite bool_decide_eq_true_2 | by rewrite orb_true_r]. }
  rewrite Hpass. cbn [negb].
  by destruct (bool_decide (identitiesTotal (originDataOf st origin) = 0)).
Qed.

(** ** The usage counter and the transfer confirmation *)

Section SameState.

Variables (st st' : StateManager).
Hypothesis Hstate : state st = state st'.

Lemma originDataOf_state (o : TOrigin) : originDataOf st o = originDataOf st' o.
Proof using Hstate. unfold originDataOf. by rewrite Hstate. Qed.

Lemma linkExists_state (from to : TOrigin) : linkExists st from to = linkExists st' from to.
Proof using Hstate. unfold linkExists. by rewrite originDataOf_state. Qed.

Lemma linkCheck_state (body : IIdentityLoginRequest) : linkCheck st body = linkCheck st' body.
Proof using Hstate.
  unfold linkCheck. destruct (withLinkedOrigin body); [|done]. by rewrite linkExists_state.
Qed.

Lemma sessionOrImplicit_state (origin : TOrigin) (env : Env) (w w' : World) :
  fst (sessionOrImplicit st origin env w) = fst (sessionOrImplicit st' origin env w').
Proof using Hstate.
  rewrite !sessionOrImplicit_run, originDataOf_state.
  destruct (currentSession (originDataOf st' origin)); [done|]. by destruct (isMasquerade origin).
Qed.

Lemma state_addIdentity (o : TOrigin) : state (addIdentity st o) = state (addIdentity st' o).
Proof using Hstate. unfold addIdentity, with_originData. simpl. by rewrite originDataOf_state, Hstate. Qed.

Lemma state_loggedIn (body : IIdentityLoginRequest) (now : TTimestamp) :
  state (loggedIn st body now) = state (loggedIn st' body now).
Proof using Hstate. unfold loggedIn, with_originData. simpl. by rewrite originDataOf_state, Hstate. Qed.

Lemma state_loggedOut (o : TOrigin) : state (loggedOut st o) = state (loggedOut st' o).
Proof using Hstate. unfold loggedOut, with_originData. simpl. by rewrite originDataOf_state, Hstate. Qed.

Lemma state_link (from to : TOrigin) : state (link st from to) = state (link st' from to).
Proof using Hstate.
  unfold link. rewrite linkExists_state.
  destruct (bool_decide (from = to) || linkExists st' from to); [done|].
  unfold with_originData. simpl. by rewrite originDataOf_state, Hstate.
Qed.

Lemma state_unlink (from to : TOrigin) : state (unlink st from to) = state (unlink st' from to).
Proof using Hstate. unfold unlink, with_originData. simpl. by rewrite Hstate. Qed.

End SameState.

Lemma state_deauthorize (m m' : StateManager) (origin target : TOrigin) :
  state m = state m' ->
  state (deauthorize m origin target) = state (deauthorize m' origin target).
Proof.
  intros Hstate. unfold deauthorize. rewrite (originDataOf_state m m' Hstate).
  destruct (currentSession (originDataOf m' target)); [|done].
  case_bool_decide; [|done]. unfold with_originData. simpl. by rewrite Hstate.
Qed.

(** The answer of a request and the state it leaves do not depend on the
    usage counter it starts from. *)
Lemma handle_ignores_stats (req : Request) (env : Env) (st st' : StateManager) :
  state st = state st' ->
  fst (run (handle req) env st) = fst (run (handle req) env st')
  ∧ state (storageAfter req env st) = state (storageAfter req env st').
Proof.
  intros Hstate.
  pose proof (originDataOf_state st st' Hstate) as Hod.
  pose proof (linkExists_state st st' Hstate) as Hex.
  pose proof (linkCheck_state st st' Hstate) as Hcheck.
  split.
  - destruct req as [body|body|body|o|body o|body o|body o|body o|o|o];
      lazy beta iota delta [handle]; rewrite !run_answer.
    + done.
    + rewrite !login_run, Hcheck, Hod.
      destruct (negb (linkCheck st' body)); [done|]. by case_bool_decide.
    + rewrite !getLoginOptions_run. simpl. rewrite Hod. do 3 f_equal.
      apply map_ext. intros x. by rewrite Hod.
    + rewrite !logout_run, Hod. destruct (currentSession (originDataOf st' o)); [|done].
      by destruct (userAgrees env).
    + rewrite !sign_run.
      pose proof (sessionOrImplicit_state st st' Hstate o env
                    (mkWorld st []) (mkWorld st' [])) as Hs.
      by destruct (sessionOrImplicit st o env _) as [[?|?] ?],
                  (sessionOrImplicit st' o env _) as [[?|?] ?]; simplify_eq/=.
    + rewrite !getPublicKey_run.
      pose proof (sessionOrImplicit_state st st' Hstate o env
                    (mkWorld st []) (mkWorld st' [])) as Hs.
      by destruct (sessionOrImplicit st o env _) as [[?|?] ?],
                  (sessionOrImplicit st' o env _) as [[?|?] ?]; simplify_eq/=.
    + rewrite !link_run, Hex. case_bool_decide; [done|].
      destruct (linkExists st' o (link_withOrigin body)); [done|]. by destruct (userAgrees env).
    + rewrite !unlink_run, Hex. destruct (linkExists st' o (unlink_withOrigin body)); [|done].
      by destruct (userAgrees env).
    + rewrite !getLinks_run. simpl. by rewrite Hod.
    + rewrite !sessionExists_run. simpl. by rewrite Hod.
  - rewrite !storageAfter_cases.
    destruct req as [body|body|body|o|body o|body o|body o|body o|o|o];
      rewrite ?Hcheck, ?Hod, ?Hex.
    + simpl. by apply state_addIdentity.
    + destruct (_ && _); [by apply state_loggedIn | done].
    + done.
    + destruct (currentSession (originDataOf st' o)); [|done].
      destruct (userAgrees env); [by apply state_loggedOut | done].
    + destruct (currentSession (originDataOf st' o)); [done|]. by destruct (isMasquerade o).
    + destruct (currentSession (originDataOf st' o)); [done|]. by destruct (isMasquerade o).
    + destruct (_ && _); [|done]. simpl. by apply state_link.
    + destruct (_ && _); [|done]. simpl. by apply state_deauthorize, state_unlink.
    + done.
    + done.
Qed.

(** X17: the transfer confirmation answers what the user answered and, even
    when the user declines, persists once, after the dialog; it leaves the
    site session and every origin entry as they were, so that no request of
    the identity protocol that follows can tell it has happened. *)
Theorem transfer_confirm_only_counts
    (body : IShowICRC1TransferConfirmRequest) (env env' : Env) (st : StateManager)
    (req : Request) :
  let r := run (protected_handleShowICRC1TransferConfirm body) env st in
  fst r = Ok (userAgrees env)
  ∧ trace (snd r) = [EvDialog; EvPersist]
  ∧ state (storage (snd r)) = state st
  ∧ fst (run (handle req) env' (storage (snd r))) = fst (run (handle req) env' st)
  ∧ state (storageAfter req env' (storage (snd r))) = state (storageAfter req env' st).
Proof.
  intros r. subst r. unfold protected_handleShowICRC1TransferConfirm. handler_simpl.
  split_and!; [done..| |]; by apply handle_ignores_stats.
Qed.

(** ** The method guard *)

(** X18: the guard covers every method of every protected kind: such a
    method is refused with the protected-method error from every origin but
    the Masquerade site; the Masquerade site may call every method, and a
    method that is refused is a protected one called from another origin. *)
Theorem guardMethods_protects (method : string) (origin : TOrigin) :
  (∀ kind methods name,
     SNAP_METHODS_protected !! kind = Some methods -> methods !! name = Some method ->
     origin ≠ MSQ_SNAP_SITE_ORIGIN ->
     ∃ msg, guardMethods method origin = Throw (Err PROTECTED_METHOD msg))
  ∧ guardMethods method MSQ_SNAP_SITE_ORIGIN = Ok ()
  ∧ (guardMethods method origin ≠ Ok () ->
     origin ≠ MSQ_SNAP_SITE_ORIGIN
     ∧ ∃ kind methods name,
         SNAP_METHODS_protected !! kind = Some methods ∧ methods !! name = Some method).
Proof.
  assert (Hin : method ∈ PROTECTED_METHODS
                ↔ ∃ kind methods name,
                    SNAP_METHODS_protected !! kind = Some methods
                    ∧ methods !! name = Some method).
  { unfold PROTECTED_METHODS. rewrite list_elem_of_bind. split.
    - intros (kind & Hm & Hk).
      apply list_elem_of_fmap in Hk as ([kind' methods] & -> & Hk).
      apply elem_of_map_to_list in Hk. simpl in Hm. rewrite Hk in Hm. simpl in Hm.
      apply list_elem_of_fmap in Hm as ([name m] & -> & Hm).
      apply elem_of_map_to_list in Hm. by exists kind', methods, name.
    - intros (kind & methods & name & Hk & Hm). exists kind. split.
      + rewrite Hk. simpl. apply list_elem_of_fmap. exists (name, method).
        split; [done|]. by apply elem_of_map_to_list.
      + apply list_elem_of_fmap. exists (kind, methods).
        split; [done|]. by apply elem_of_map_to_list. }
  unfold guardMethods, isMasquerade. split_and!.
  - intros kind methods name Hk Hm Hne.
    rewrite bool_decide_eq_true_2 by (apply Hin; eauto).
    rewrite (bool_decide_eq_false_2 (origin = _)) by done. simpl. by eexists.
  - rewrite (bool_decide_eq_true_2 (MSQ_SNAP_SITE_ORIGIN = _)) by done.
    by destruct (bool_decide (method ∈ PROTECTED_METHODS)).
  - destruct (decide (method ∈ PROTECTED_METHODS)) as [Hp|Hp].
    + rewrite (bool_decide_eq_true_2 _ Hp). simpl.
      destruct (decide (origin = MSQ_SNAP_SITE_ORIGIN)) as [Ho|Ho].
      * by rewrite (bool_decide_eq_true_2 _ Ho).
      * intros _. split; [done|]. by apply Hin.
    + by rewrite (bool_decide_eq_false_2 _ Hp).
Qed.

(** ** Link lists and consent *)

(** X19: in every reachable state no origin is linked to itself, and no
    link list, outgoing or incoming, holds an origin twice. *)
Theorem reachable_links_simple (s0 : Stats) (st : StateManager) (o : TOrigin) :
  reachable s0 st ->
  (o ∉ linksTo (originDataOf st o))
  ∧ (o ∉ linksFrom (originDataOf st o))
  ∧ NoDup (linksTo (originDataOf st o))
  ∧ NoDup (linksFrom (originDataOf st o)).
Proof.
  intros Hreach. apply reachable_wellLinked in Hreach as (Hcons & Hto & Hfrom & Hself).
  split_and!; [apply Hself | | apply Hto | apply Hfrom].
  intros Hin. apply Hcons in Hin. by apply Hself in Hin.
Qed.

Lemma declined_step (req : Request) (now : TTimestamp) (st : StateManager) :
  let st' := storageAfter req (mkEnv false now) st in
  sameLinks st st'
  ∧ ∀ o, currentSession (originDataOf st o) ≠ None ->
         currentSession (originDataOf st' o) ≠ None.
Proof.
  intros st'. subst st'. rewrite storageAfter_cases.
  destruct req as [body|body|body|x|body x|body x|body x|body x|x|x]; simpl.
  - split.
    + eapply sameLinks_trans; [apply sameLinks_addIdentity | apply sameLinks_incrementStats].
    + intros o. rewrite originDataOf_incrementStats, originDataOf_addIdentity.
      by destruct (decide (o = add_toOrigin body)) as [->|].
  - destruct (_ && _); [|split; [apply sameLinks_refl | done]].
    split; [apply sameLinks_loggedIn|].
    intros o. rewrite originDataOf_loggedIn. by destruct (decide (o = toOrigin body)).
  - split; [apply sameLinks_incrementStats | done].
  - destruct (currentSession (originDataOf st x)); split; (apply sameLinks_refl || done).
  - destruct (currentSession (originDataOf st x));
      [|destruct (isMasquerade x)]; split; (apply sameLinks_incrementStats || done).
  - destruct (currentSession (originDataOf st x));
      [|destruct (isMasquerade x)]; split; (apply sameLinks_incrementStats || done).
  - rewrite andb_false_r. split; [apply sameLinks_refl | done].
  - rewrite andb_false_r. split; [apply sameLinks_refl | done].
  - split; [apply sameLinks_incrementStats | done].
  - split; [apply sameLinks_incrementStats | done].
Qed.

(** X20: nothing is shared or taken away without consent: through any
    sequence of requests in which the user declines every dialog, the link
    lists of every origin stay as they were, and every origin that had a
    session still has one. *)
Theorem no_consent_no_link_change (reqs : list (Request * Env)) (st : StateManager) :
  allDeclined reqs ->
  sameLinks st (storageAfterAll reqs st)
  ∧ ∀ o, currentSession (originDataOf st o) ≠ None ->
         currentSession (originDataOf (storageAfterAll reqs st) o) ≠ None.
Proof.
  revert st. induction reqs as [|[req [agrees now]] reqs IH]; intros st Hall.
  - split; [apply sameLinks_refl | done].
  - apply Forall_cons in Hall as [Hno Hall]. simpl in Hno. subst agrees.
    destruct (declined_step req now st) as [Hlinks Hsessions].
    destruct (IH (storageAfter req (mkEnv false now) st) Hall) as [Hlinks' Hsessions'].
    split.
    + eapply sameLinks_trans; [apply Hlinks | apply Hlinks'].
    + intros o Ho. by apply Hsessions', Hsessions.
Qed.

End Snap.

(** * The handlers on the concrete host *)

Import SampleHost.

Abbreviation hostRun := (run Stats).
Abbreviation hostLogin := (protected_handleIdentityLogin Stats bumpStats).
Abbreviation hostLink := (handleIdentityLinkRequest Stats bumpStats).
Abbreviation hostUnlink := (handleIdentityUnlinkRequest Stats bumpStats).
Abbreviation hostSign :=
  (handleIdentitySign Stats bumpStats snap_getEntropy hexToBytes digest32
     Secp256k1KeyIdentity fromSecretKey signWith MSQ_SNAP_SITE_ORIGIN).
Abbreviation hostGetLoginOptions :=
  (protected_handleIdentityGetLoginOptions Stats bumpStats snap_getEntropy hexToBytes digest32
     Secp256k1KeyIdentity fromSecretKey principalText).
Abbreviation hostReachable :=
  (reachable Stats bumpStats snap_getEntropy hexToBytes digest32
     Secp256k1KeyIdentity fromSecretKey publicKeyRaw principalText signWith
     MSQ_SNAP_SITE_ORIGIN 0).
(** The storage after a sequence of requests on a fresh installation. *)
Abbreviation hostAfter reqs :=
  (storageAfterAll Stats bumpStats snap_getEntropy hexToBytes digest32
     Secp256k1KeyIdentity fromSecretKey publicKeyRaw principalText signWith
     MSQ_SNAP_SITE_ORIGIN reqs (emptyState Stats 0)).
Abbreviation agreeing := (mkEnv true 1000).
Abbreviation declining := (mkEnv false 1000).

Lemma hostAfter_reachable (reqs : list (Request * Env)) : hostReachable (hostAfter reqs).
Proof. apply reachable_storageAfterAll. constructor. Qed.

Lemma digest32_length (bs : TBlob) : length (digest32 bs) = 32.
Proof.
  unfold digest32. rewrite length_take, length_app, length_replicate. lia.
Qed.

Lemma sample_entropy_inj : Inj (=) (=) (entropySource snap_getEntropy hexToBytes).
Proof.
  intros l1 l2 Heq. unfold entropySource, snap_getEntropy, hexToBytes in Heq. simpl in Heq.
  apply (f_equal String.string_of_list_byte) in Heq.
  by rewrite !String.string_of_list_byte_of_string in Heq.
Qed.

(** ** No digest separates the labels of every seed *)

Lemma blobsOfLength_S (n : nat) :
  blobsOfLength (S n) = b ← allBytes; (cons b) <$> blobsOfLength n.
Proof. reflexivity. Qed.

Lemma elem_of_allBytes (b : byte) : b ∈ allBytes.
Proof.
  apply list_elem_of_omap. exists (Byte.to_nat b). split.
  - apply elem_of_seq. pose proof (Byte.to_nat_bounded b). lia.
  - apply Byte.of_to_nat.
Qed.

Lemma NoDup_allBytes : NoDup allBytes.
Proof.
  apply (NoDup_fmap_1 Byte.to_nat).
  assert (Byte.to_nat <$> allBytes = seq 0 256) as -> by (vm_compute; reflexivity).
  apply NoDup_seq.
Qed.

Lemma length_allBytes : length allBytes = 256.
Proof. vm_compute. reflexivity. Qed.

Lemma elem_of_blobsOfLength (bs : TBlob) : bs ∈ blobsOfLength (length bs).
Proof.
  induction bs as [|b bs IH]; cbn [length].
  - apply list_elem_of_here.
  - rewrite blobsOfLength_S. apply list_elem_of_bind. exists b.
    split; [|apply elem_of_allBytes].
    apply list_elem_of_fmap. by exists bs.
Qed.

Lemma length_blobsOfLength (n : nat) :
  length (blobsOfLength (S n)) = 256 * length (blobsOfLength n).
Proof.
  rewrite <- length_allBytes, blobsOfLength_S.
  generalize allBytes. intros l. induction l as [|b l IH]; [done|].
  rewrite bind_cons, length_app, length_fmap, IH. simpl. lia.
Qed.

Lemma NoDup_blobsOfLength (n : nat) : NoDup (blobsOfLength n).
Proof.
  induction n as [|n IH].
  - apply NoDup_singleton.
  - rewrite blobsOfLength_S. apply NoDup_bind; [| |apply NoDup_allBytes].
    + intros b1 b2 bs _ _ (bs1 & -> & _)%list_elem_of_fmap (bs2 & [= -> _] & _)%list_elem_of_fmap.
      done.
    + intros b _. apply NoDup_fmap_2; [|done]. by intros ?? [=].
Qed.

(** A function from byte strings to byte strings of one length is not
    injective: there are 256 times more strings one byte longer than that
    length than it has values. *)
Lemma digest_not_injective (h : TBlob → TBlob) (n : nat) :
  (∀ bs, length (h bs) = n) -> ¬ Inj (=) (=) h.
Proof.
  intros Hlen Hinj.
  assert (Hle : length (h <$> blobsOfLength (S n)) ≤ length (blobsOfLength n)).
  { apply submseteq_length, NoDup_submseteq.
    - apply NoDup_fmap_2; [done | apply NoDup_blobsOfLength].
    - intros x (y & -> & _)%list_elem_of_fmap.
      rewrite <- (Hlen y). apply elem_of_blobsOfLength. }
  rewrite length_fmap, length_blobsOfLength in Hle.
  assert (0 < length (blobsOfLength n)).
  { pose proof (elem_of_blobsOfLength (replicate n x00)) as Hin.
    rewrite length_replicate in Hin.
    destruct (blobsOfLength n); [by apply elem_of_nil in Hin | simpl; lia]. }
  lia.
Qed.

Lemma entropySource_seedThrough (hexToBytes : string → TBlob) (toHex : TBlob → string)
    (lx ly : string) (x y : TBlob) (label : string) :
  (∀ bs, hexToBytes (toHex bs) = bs) ->
  entropySource (seedThrough toHex lx ly x y) hexToBytes label
  = if decide (label = lx) then x
    else if decide (label = ly) then y
    else x ++ y ++ x00 :: String.list_byte_of_string label.
Proof. intros Hhex. unfold entropySource, seedThrough. simpl. apply Hhex. Qed.

Lemma seedThrough_inj (hexToBytes : string → TBlob) (toHex : TBlob → string)
    (lx ly : string) (x y : TBlob) :
  (∀ bs, hexToBytes (toHex bs) = bs) -> x ≠ y ->
  Inj (=) (=) (entropySource (seedThrough toHex lx ly x y) hexToBytes).
Proof.
  intros Hhex Hne l1 l2. rewrite !entropySource_seedThrough by done.
  assert (Hx : ∀ l, x ≠ x ++ y ++ x00 :: String.list_byte_of_string l).
  { intros l Heq. apply (f_equal length) in Heq.
    rewrite !length_app in Heq. simpl in Heq. lia. }
  assert (Hy : ∀ l, y ≠ x ++ y ++ x00 :: String.list_byte_of_string l).
  { intros l Heq. apply (f_equal length) in Heq.
    rewrite !length_app in Heq. simpl in Heq. lia. }
  destruct (decide (l1 = lx)) as [->|H1x], (decide (l2 = lx)) as [->|H2x]; [done|..].
  - destruct (decide (l2 = ly)) as [->|H2y]; intros Heq; [done | by apply Hx in Heq].
  - destruct (decide (l1 = ly)) as [->|H1y]; intros Heq;
      [by symmetry in Heq | symmetry in Heq; by apply Hx in Heq].
  - destruct (decide (l1 = ly)) as [->|H1y], (decide (l2 = ly)) as [->|H2y]; [done|..];
      intros Heq.
    + by apply Hy in Heq.
    + symmetry in Heq. by apply Hy in Heq.
    + do 2 apply app_inv_head in Heq. injection Heq as Heq.
      apply (f_equal String.string_of_list_byte) in Heq.
      by rewrite !String.string_of_list_byte_of_string in Heq.
Qed.


(** C1 as stated fails: A has linked itself to B, A has no identity and B
    has one; the login to B with derivation origin A and index 0 is not
    below identitiesTotal of A, and still it succeeds and records the
    session. *)
Lemma login_ignores_derivation_total :
  let st := hostAfter [(ReqLink {| link_withOrigin := B |} A, agreeing);
                       (ReqAdd {| add_toOrigin := B |}, agreeing)] in
  let r := hostRun (hostLogin {| toOrigin := B; withIdentityId := 0;
                                 withLinkedOrigin := Some A |}) agreeing st in
  linkExists Stats st A B = true
  ∧ identitiesTotal (originDataOf Stats st A) = 0
  ∧ ¬ (0 < identitiesTotal (originDataOf Stats st A))
  ∧ fst r = Ok true
  ∧ currentSession (originDataOf Stats (storage Stats (snd r)) B)
    = Some {| deriviationOrigin := A; identityId := 0; timestampMs := 1000 |}.
Proof.
  vm_compute. split_and!; try reflexivity. lia.
Qed.

(** The amended C1 at the same state, with an index no origin has. *)
(** C9 as stated fails: the entries of a group are not public keys.  On a
    host whose principal text is not the text of the public key, after two
    identities are added on A and A is linked to B, the group of A in the
    login options of B holds the principals of the two key pairs of A, and
    these are not the two public keys. *)
Lemma getLoginOptions_lists_principals :
  let st := hostAfter [(ReqAdd {| add_toOrigin := A |}, agreeing);
                       (ReqAdd {| add_toOrigin := A |}, agreeing);
                       (ReqLink {| link_withOrigin := B |} A, agreeing)] in
  let key i := getSignIdentity snap_getEntropy hexToBytes digest32
                 Secp256k1KeyIdentity fromSecretKey A i None in
  let options :=
    fst (hostRun (protected_handleIdentityGetLoginOptions Stats bumpStats snap_getEntropy
                    hexToBytes digest32 Secp256k1KeyIdentity fromSecretKey selfAuthenticating
                    {| forOrigin := B |}) agreeing st) in
  options = Ok [(B, []); (A, [selfAuthenticating (key 0); selfAuthenticating (key 1)])]
  ∧ options ≠ Ok [(B, []); (A, [String.string_of_list_byte (publicKeyRaw (key 0));
                                 String.string_of_list_byte (publicKeyRaw (key 1))])].
Proof. vm_compute. split; [reflexivity | discriminate]. Qed.

Lemma login_checks_login_origin_total_witness :
  let st := hostAfter [(ReqLink {| link_withOrigin := B |} A, agreeing);
                       (ReqAdd {| add_toOrigin := B |}, agreeing)] in
  let body := {| toOrigin := B; withIdentityId := 7; withLinkedOrigin := Some A |} in
  ∃ st', hostRun (hostLogin body) agreeing st = (Ok true, mkWorld Stats st' [EvPersist])
    ∧ currentSession (originDataOf Stats st' B)
      = Some {| deriviationOrigin := A; identityId := 7; timestampMs := 1000 |}.
Proof.
  intros st body.
  apply (proj2 (login_checks_login_origin_total Stats bumpStats body agreeing st
    ltac:(intros linked [= <-]; right; vm_compute; reflexivity))).
  vm_compute. lia.
Defined.

Lemma login_requires_link_witness :
  let st := hostAfter [(ReqAdd {| add_toOrigin := A |}, agreeing);
                       (ReqAdd {| add_toOrigin := A |}, agreeing)] in
  hostRun (hostLogin {| toOrigin := A; withIdentityId := 0; withLinkedOrigin := Some B |}) agreeing st
  = (Throw (Err UNAUTHORIZED "Unable to login without a link"), mkWorld Stats st [])
  ∧ ∃ st', hostRun (hostLogin {| toOrigin := A; withIdentityId := 1;
                                 withLinkedOrigin := None |}) agreeing st
           = (Ok true, mkWorld Stats st' [EvPersist])
      ∧ currentSession (originDataOf Stats st' A)
        = Some {| deriviationOrigin := A; identityId := 1; timestampMs := 1000 |}.
Proof.
  intros st. split.
  - apply (proj1 (login_requires_link Stats bumpStats
      {| toOrigin := A; withIdentityId := 0; withLinkedOrigin := Some B |} agreeing st) B).
    + reflexivity.
    + vm_compute. discriminate.
    + vm_compute. reflexivity.
  - apply (proj2 (login_requires_link Stats bumpStats
      {| toOrigin := A; withIdentityId := 1; withLinkedOrigin := None |} agreeing st)).
    + left. reflexivity.
    + vm_compute. lia.
Defined.

Lemma declined_consent_changes_nothing_witness :
  let st := hostAfter [(ReqAdd {| add_toOrigin := A |}, agreeing)] in
  hostRun (hostLink {| link_withOrigin := B |} A) declining st = (Ok false, mkWorld Stats st [EvDialog]).
Proof.
  intros st.
  destruct (declined_consent_changes_nothing Stats bumpStats st 1000%Z)
    as (_ & _ & _ & Hlink & _ & _).
  apply (Hlink {| link_withOrigin := B |} A).
  - vm_compute. discriminate.
  - vm_compute. reflexivity.
Defined.

Lemma getEntropy_is_reference_witness :
  length (getEntropy snap_getEntropy hexToBytes digest32 A 0 "identity-sign" (Some [x01; x02]))
  = 32.
Proof.
  apply (getEntropy_is_reference snap_getEntropy hexToBytes digest32
           Secp256k1KeyIdentity fromSecretKey digest32_length
           A 0 "identity-sign" (Some [x01; x02])).
Defined.


Lemma reachable_linksConsistent_witness :
  let st := hostAfter [(ReqLink {| link_withOrigin := B |} A, agreeing)] in
  B ∈ linksTo (originDataOf Stats st A) ↔ A ∈ linksFrom (originDataOf Stats st B).
Proof.
  intros st.
  apply (reachable_linksConsistent Stats bumpStats snap_getEntropy hexToBytes digest32
           Secp256k1KeyIdentity fromSecretKey publicKeyRaw principalText signWith
           MSQ_SNAP_SITE_ORIGIN 0 st A B).
  apply hostAfter_reachable.
Defined.

Lemma unlink_cascades_logout_witness :
  let st := hostAfter [(ReqAdd {| add_toOrigin := A |}, agreeing);
                       (ReqAdd {| add_toOrigin := B |}, agreeing);
                       (ReqLink {| link_withOrigin := B |} A, agreeing);
                       (ReqLogin {| toOrigin := B; withIdentityId := 0;
                                    withLinkedOrigin := Some A |}, agreeing)] in
  currentSession
    (originDataOf Stats
       (storage Stats (snd (hostRun (hostUnlink {| unlink_withOrigin := B |} A) agreeing st))) B)
  = None.
Proof.
  intros st.
  apply (unlink_cascades_logout Stats bumpStats {| unlink_withOrigin := B |} A agreeing st
           {| deriviationOrigin := A; identityId := 0; timestampMs := 1000 |}).
  - vm_compute. reflexivity.
  - vm_compute. apply list_elem_of_here.
  - vm_compute. reflexivity.
  - reflexivity.
Defined.

Lemma link_unlink_idempotent_witness :
  let st := hostAfter [(ReqAdd {| add_toOrigin := A |}, agreeing)] in
  let st1 := storage Stats (snd (hostRun (hostLink {| link_withOrigin := B |} A) agreeing st)) in
  hostRun (hostLink {| link_withOrigin := B |} A) declining st1 = (Ok true, mkWorld Stats st1 [])
  ∧ length (filter (λ x, x = B) (linksTo (originDataOf Stats st1 A))) = 1
  ∧ length (filter (λ x, x = A) (linksFrom (originDataOf Stats st1 B))) = 1.
Proof.
  intros st.
  apply (link_unlink_idempotent Stats bumpStats snap_getEntropy hexToBytes digest32
           Secp256k1KeyIdentity fromSecretKey publicKeyRaw principalText signWith
           MSQ_SNAP_SITE_ORIGIN 0 st A B agreeing declining).
  - apply hostAfter_reachable.
  - vm_compute. reflexivity.
Defined.

Lemma getLoginOptions_groups_witness :
  let st := hostAfter [(ReqAdd {| add_toOrigin := A |}, agreeing);
                       (ReqAdd {| add_toOrigin := A |}, agreeing);
                       (ReqLink {| link_withOrigin := B |} A, agreeing)] in
  fst (hostRun (hostGetLoginOptions {| forOrigin := B |}) agreeing st)
  = Ok [(B, []);
        (A, [principalText (getSignIdentity snap_getEntropy hexToBytes digest32
                              Secp256k1KeyIdentity fromSecretKey A 0 None);
             principalText (getSignIdentity snap_getEntropy hexToBytes digest32
                              Secp256k1KeyIdentity fromSecretKey A 1 None)])].
Proof.
  intros st.
  destruct (getLoginOptions_groups Stats bumpStats snap_getEntropy hexToBytes digest32
              Secp256k1KeyIdentity fromSecretKey publicKeyRaw principalText signWith
              MSQ_SNAP_SITE_ORIGIN {| forOrigin := B |} agreeing st) as (_ & _ & Hscenario).
  apply (Hscenario A B 0 agreeing agreeing 1000%Z).
  vm_compute. discriminate.
Defined.

Lemma sign_without_session_witness :
  hostRun (hostSign {| challenge := [x2a]; sign_salt := None |} A) agreeing (hostAfter [])
  = (Throw (Err UNAUTHORIZED "Log in first"), mkWorld Stats (hostAfter []) []).
Proof.
  apply (sign_without_session Stats bumpStats snap_getEntropy hexToBytes digest32
           Secp256k1KeyIdentity fromSecretKey signWith MSQ_SNAP_SITE_ORIGIN
           {| challenge := [x2a]; sign_salt := None |} A agreeing (hostAfter [])).
  - vm_compute. reflexivity.
  - vm_compute. discriminate.
Defined.

(** ** The scenarios of the specification, run *)

(** Two identities added on A, login with the second, session query,
    confirmed logout, session query. *)
Example scenario_login_logout :
  let added := hostAfter [(ReqAdd {| add_toOrigin := A |}, agreeing);
                          (ReqAdd {| add_toOrigin := A |}, agreeing)] in
  let login := hostRun (hostLogin {| toOrigin := A; withIdentityId := 1;
                                     withLinkedOrigin := Some A |}) agreeing added in
  let inside := storage Stats (snd login) in
  let logout := hostRun (handleIdentityLogoutRequest Stats bumpStats A) agreeing inside in
  let outside := storage Stats (snd logout) in
  identitiesTotal (originDataOf Stats added A) = 2
  ∧ fst login = Ok true
  ∧ fst (hostRun (handleIdentitySessionExists Stats bumpStats A) agreeing inside) = Ok true
  ∧ fst logout = Ok true
  ∧ fst (hostRun (handleIdentitySessionExists Stats bumpStats A) agreeing outside) = Ok false.
Proof. vm_compute. by split_and!. Qed.

(** A link is not symmetric, and a self-link is refused. *)
Example scenario_link_asymmetry :
  let linked := hostAfter [(ReqLink {| link_withOrigin := B |} A, agreeing)] in
  linkExists Stats linked A B = true
  ∧ linkExists Stats linked B A = false
  ∧ hostRun (hostLink {| link_withOrigin := A |} A) agreeing linked
    = (Throw (Err INVALID_INPUT "Unable to link to itself"), mkWorld Stats linked []).
Proof. vm_compute. by split_and!. Qed.

(** The Masquerade site signs with its identity 0 without a session. *)
Example scenario_masquerade_signs :
  fst (hostRun (hostSign {| challenge := [x2a]; sign_salt := None |} MSQ_SNAP_SITE_ORIGIN)
         agreeing (hostAfter []))
  = Ok (signWith (getSignIdentity snap_getEntropy hexToBytes digest32 Secp256k1KeyIdentity
                    fromSecretKey MSQ_SNAP_SITE_ORIGIN 0 None) [x2a]).
Proof. vm_compute. reflexivity. Qed.

(** ** More of the snap, on the concrete host *)

Abbreviation hostHandle :=
  (handle Stats bumpStats snap_getEntropy hexToBytes digest32
     Secp256k1KeyIdentity fromSecretKey publicKeyRaw principalText signWith
     MSQ_SNAP_SITE_ORIGIN).
Abbreviation hostStorageAfter :=
  (storageAfter Stats bumpStats snap_getEntropy hexToBytes digest32
     Secp256k1KeyIdentity fromSecretKey publicKeyRaw principalText signWith
     MSQ_SNAP_SITE_ORIGIN).
Abbreviation hostGetPublicKey :=
  (handleIdentityGetPublicKey Stats bumpStats snap_getEntropy hexToBytes digest32
     Secp256k1KeyIdentity fromSecretKey publicKeyRaw MSQ_SNAP_SITE_ORIGIN).
Abbreviation hostIdentity :=
  (getSignIdentity snap_getEntropy hexToBytes digest32 Secp256k1KeyIdentity fromSecretKey).
(** A table of protected methods to run the guard on. *)
Abbreviation sampleProtected :=
  ({[ "identity" := {[ "login" := "protected_identity_login" ]} ]}
   : gmap string (gmap string string)).


Lemma request_effects_witness :
  storage Stats
    (snd (hostRun (hostHandle (ReqLink {| link_withOrigin := B |} A)) declining (hostAfter [])))
  = hostAfter [].
Proof.
  apply (request_effects Stats bumpStats snap_getEntropy hexToBytes digest32
           Secp256k1KeyIdentity fromSecretKey publicKeyRaw principalText signWith
           MSQ_SNAP_SITE_ORIGIN (ReqLink {| link_withOrigin := B |} A) declining (hostAfter [])).
  vm_compute. apply not_elem_of_cons. split; [discriminate | apply not_elem_of_nil].
Defined.

Lemma request_writes_only_its_origins_witness :
  originDataOf Stats (hostStorageAfter (ReqAdd {| add_toOrigin := A |}) agreeing (hostAfter [])) B
  = originDataOf Stats (hostAfter []) B.
Proof.
  apply (request_writes_only_its_origins Stats bumpStats snap_getEntropy hexToBytes digest32
           Secp256k1KeyIdentity fromSecretKey publicKeyRaw principalText signWith
           MSQ_SNAP_SITE_ORIGIN (ReqAdd {| add_toOrigin := A |}) agreeing (hostAfter []) B).
  apply not_elem_of_cons. split; [vm_compute; discriminate | apply not_elem_of_nil].
Defined.

Lemma reachable_session_has_identity_witness :
  let st := hostAfter [(ReqAdd {| add_toOrigin := A |}, agreeing);
                       (ReqLogin {| toOrigin := A; withIdentityId := 0;
                                    withLinkedOrigin := None |}, agreeing)] in
  1 ≤ identitiesTotal (originDataOf Stats st A).
Proof.
  intros st.
  apply (reachable_session_has_identity Stats bumpStats snap_getEntropy hexToBytes digest32
           Secp256k1KeyIdentity fromSecretKey publicKeyRaw principalText signWith
           MSQ_SNAP_SITE_ORIGIN 0 st A).
  - apply hostAfter_reachable.
  - vm_compute. discriminate.
Defined.

Lemma reachable_session_has_link_witness :
  let st := hostAfter [(ReqAdd {| add_toOrigin := B |}, agreeing);
                       (ReqLink {| link_withOrigin := B |} A, agreeing);
                       (ReqLogin {| toOrigin := B; withIdentityId := 0;
                                    withLinkedOrigin := Some A |}, agreeing)] in
  linkExists Stats st A B = true.
Proof.
  intros st.
  apply (reachable_session_has_link Stats bumpStats snap_getEntropy hexToBytes digest32
           Secp256k1KeyIdentity fromSecretKey publicKeyRaw principalText signWith
           MSQ_SNAP_SITE_ORIGIN 0 st B
           {| deriviationOrigin := A; identityId := 0; timestampMs := 1000 |}).
  - apply hostAfter_reachable.
  - vm_compute. reflexivity.
  - vm_compute. discriminate.
Defined.

Lemma entropySalt_inj_origin_identityId_witness : A = A ∧ 3 = 3.
Proof.
  apply (entropySalt_inj_origin_identityId A A 3 3 "identity-sign"). reflexivity.
Defined.

Lemma empty_salt_is_no_salt_witness :
  hostRun (hostSign {| challenge := [x2a]; sign_salt := Some [] |} MSQ_SNAP_SITE_ORIGIN)
    agreeing (hostAfter [])
  = hostRun (hostSign {| challenge := [x2a]; sign_salt := None |} MSQ_SNAP_SITE_ORIGIN)
      agreeing (hostAfter []).
Proof.
  apply (empty_salt_is_no_salt Stats bumpStats snap_getEntropy hexToBytes digest32
           Secp256k1KeyIdentity fromSecretKey publicKeyRaw signWith MSQ_SNAP_SITE_ORIGIN
           MSQ_SNAP_SITE_ORIGIN {| challenge := [x2a]; sign_salt := Some [] |}
           agreeing (hostAfter []) A 0).
  reflexivity.
Defined.

Lemma sign_and_publicKey_agree_witness :
  let st := hostAfter [(ReqAdd {| add_toOrigin := A |}, agreeing);
                       (ReqLogin {| toOrigin := A; withIdentityId := 0;
                                    withLinkedOrigin := None |}, agreeing)] in
  let signBody := {| challenge := [x2a]; sign_salt := Some [x01] |} in
  let pkBody := {| pk_salt := Some [x01] |} in
  (∃ e, hostRun (hostSign signBody A) agreeing st = (Throw e, mkWorld Stats st [])
        ∧ hostRun (hostGetPublicKey pkBody A) agreeing st = (Throw e, mkWorld Stats st []))
  ∨ (∃ identity,
       hostRun (hostSign signBody A) agreeing st
       = (Ok (signWith identity [x2a]),
          mkWorld Stats (incrementStats Stats bumpStats st A) [EvPersist])
       ∧ hostRun (hostGetPublicKey pkBody A) agreeing st
         = (Ok (publicKeyRaw identity),
            mkWorld Stats (incrementStats Stats bumpStats st A) [EvPersist])).
Proof.
  intros st signBody pkBody.
  apply (sign_and_publicKey_agree Stats bumpStats snap_getEntropy hexToBytes digest32
           Secp256k1KeyIdentity fromSecretKey publicKeyRaw signWith MSQ_SNAP_SITE_ORIGIN
           signBody pkBody A agreeing st).
  reflexivity.
Defined.

Lemma login_then_sign_witness :
  let st := hostAfter [(ReqAdd {| add_toOrigin := A |}, agreeing)] in
  let body := {| toOrigin := A; withIdentityId := 3; withLinkedOrigin := None |} in
  let st1 := storage Stats (snd (hostRun (hostLogin body) agreeing st)) in
  fst (hostRun (handleIdentitySessionExists Stats bumpStats A) agreeing st1) = Ok true
  ∧ fst (hostRun (hostSign {| challenge := [x2a]; sign_salt := None |} A) agreeing st1)
    = Ok (signWith (hostIdentity A 3 None) [x2a])
  ∧ fst (hostRun (hostGetPublicKey {| pk_salt := None |} A) agreeing st1)
    = Ok (publicKeyRaw (hostIdentity A 3 None)).
Proof.
  intros st body.
  apply (login_then_sign Stats bumpStats snap_getEntropy hexToBytes digest32
           Secp256k1KeyIdentity fromSecretKey publicKeyRaw signWith MSQ_SNAP_SITE_ORIGIN
           body {| challenge := [x2a]; sign_salt := None |} {| pk_salt := None |}
           agreeing agreeing st).
  vm_compute. reflexivity.
Defined.

Lemma logout_closes_session_witness :
  let st := hostAfter [(ReqAdd {| add_toOrigin := A |}, agreeing);
                       (ReqLogin {| toOrigin := A; withIdentityId := 0;
                                    withLinkedOrigin := None |}, agreeing)] in
  let st1 := storage Stats
               (snd (hostRun (handleIdentityLogoutRequest Stats bumpStats A) agreeing st)) in
  hostRun (hostSign {| challenge := [x2a]; sign_salt := None |} A) agreeing st1
  = (Throw (Err UNAUTHORIZED "Log in first"), mkWorld Stats st1 []).
Proof.
  intros st.
  destruct (logout_closes_session Stats bumpStats snap_getEntropy hexToBytes digest32
              Secp256k1KeyIdentity fromSecretKey signWith MSQ_SNAP_SITE_ORIGIN A
              {| challenge := [x2a]; sign_salt := None |} agreeing agreeing st)
    as [_ Hconfirmed].
  apply Hconfirmed; [reflexivity|]. vm_compute. discriminate.
Defined.

Lemma link_then_unlink_restores_witness :
  let st := hostAfter [(ReqAdd {| add_toOrigin := A |}, agreeing)] in
  let st1 := hostStorageAfter (ReqLink {| link_withOrigin := B |} A) (mkEnv true 1) st in
  let st2 := hostStorageAfter (ReqUnlink {| unlink_withOrigin := B |} A) (mkEnv true 2) st1 in
  linkExists Stats st1 A B = true
  ∧ linkExists Stats st1 B A = linkExists Stats st B A
  ∧ ∀ o, originDataOf Stats st2 o = originDataOf Stats st o.
Proof.
  intros st.
  apply (link_then_unlink_restores Stats bumpStats snap_getEntropy hexToBytes digest32
           Secp256k1KeyIdentity fromSecretKey publicKeyRaw principalText signWith
           MSQ_SNAP_SITE_ORIGIN 0 st A B 1%Z 2%Z).
  - apply hostAfter_reachable.
  - vm_compute. discriminate.
  - vm_compute. reflexivity.
Defined.

Lemma unlink_revokes_login_witness :
  let st := hostAfter [(ReqAdd {| add_toOrigin := B |}, agreeing);
                       (ReqLink {| link_withOrigin := B |} A, agreeing)] in
  let st1 := hostStorageAfter (ReqUnlink {| unlink_withOrigin := B |} A) (mkEnv true 1) st in
  hostRun (hostLogin {| toOrigin := B; withIdentityId := 0; withLinkedOrigin := Some A |})
    agreeing st1
  = (Throw (Err UNAUTHORIZED "Unable to login without a link"), mkWorld Stats st1 []).
Proof.
  intros st.
  apply (unlink_revokes_login Stats bumpStats snap_getEntropy hexToBytes digest32
           Secp256k1KeyIdentity fromSecretKey publicKeyRaw principalText signWith
           MSQ_SNAP_SITE_ORIGIN st A B 1%Z agreeing 0).
  vm_compute. discriminate.
Defined.

Lemma listed_options_pass_link_check_witness :
  let st := hostAfter [(ReqAdd {| add_toOrigin := A |}, agreeing);
                       (ReqLink {| link_withOrigin := B |} A, agreeing)] in
  let listing := hostRun (hostGetLoginOptions {| forOrigin := B |}) agreeing st in
  fst (hostRun (hostLogin {| toOrigin := B; withIdentityId := 0;
                             withLinkedOrigin := Some A |})
         agreeing (storage Stats (snd listing)))
  = if bool_decide (identitiesTotal (originDataOf Stats st B) = 0)
    then Throw (Unreacheable "login - no origin data found")
    else Ok true.
Proof.
  intros st.
  eapply (listed_options_pass_link_check Stats bumpStats snap_getEntropy hexToBytes digest32
            Secp256k1KeyIdentity fromSecretKey publicKeyRaw principalText signWith
            MSQ_SNAP_SITE_ORIGIN 0 st B A _ _ 0 agreeing agreeing).
  - apply hostAfter_reachable.
  - vm_compute. reflexivity.
  - apply list_elem_of_further, list_elem_of_here.
Defined.

Lemma guardMethods_protects_witness :
  ∃ msg,
    guardMethods MSQ_SNAP_SITE_ORIGIN sampleProtected "x" "protected_identity_login" A
    = Throw (Err PROTECTED_METHOD msg).
Proof.
  destruct (guardMethods_protects MSQ_SNAP_SITE_ORIGIN sampleProtected "x"
              "protected_identity_login" A) as [Hrefused _].
  apply (Hrefused "identity" {[ "login" := "protected_identity_login" ]} "login").
  - reflexivity.
  - reflexivity.
  - vm_compute. discriminate.
Defined.

Lemma reachable_links_simple_witness :
  let st := hostAfter [(ReqLink {| link_withOrigin := B |} A, agreeing);
                       (ReqLink {| link_withOrigin := A |} B, agreeing)] in
  (A ∉ linksTo (originDataOf Stats st A))
  ∧ (A ∉ linksFrom (originDataOf Stats st A))
  ∧ NoDup (linksTo (originDataOf Stats st A))
  ∧ NoDup (linksFrom (originDataOf Stats st A)).
Proof.
  intros st.
  apply (reachable_links_simple Stats bumpStats snap_getEntropy hexToBytes digest32
           Secp256k1KeyIdentity fromSecretKey publicKeyRaw principalText signWith
           MSQ_SNAP_SITE_ORIGIN 0 st A).
  apply hostAfter_reachable.
Defined.

Lemma no_consent_no_link_change_witness :
  let st := hostAfter [(ReqLink {| link_withOrigin := B |} A, agreeing)] in
  let reqs := [(ReqUnlink {| unlink_withOrigin := B |} A, declining);
               (ReqLink {| link_withOrigin := A |} B, declining)] in
  let st' := storageAfterAll Stats bumpStats snap_getEntropy hexToBytes digest32
               Secp256k1KeyIdentity fromSecretKey publicKeyRaw principalText signWith
               MSQ_SNAP_SITE_ORIGIN reqs st in
  sameLinks Stats st st'
  ∧ ∀ o, currentSession (originDataOf Stats st o) ≠ None ->
         currentSession (originDataOf Stats st' o) ≠ None.
Proof.
  intros st reqs.
  apply (no_consent_no_link_change Stats bumpStats snap_getEntropy hexToBytes digest32
           Secp256k1KeyIdentity fromSecretKey publicKeyRaw principalText signWith
           MSQ_SNAP_SITE_ORIGIN reqs st).
  repeat constructor.
Defined.
